(** * job_agent: a single-pass job-posting watcher

    A shallow embedding of [job_agent.py] and the properties its
    specification states about it.

    Conventions of the embedding.
    - A Python [str] is a [string]: the sequence of the bytes of its UTF-8
      encoding.  A [str] can also hold a lone surrogate (U+D800 to U+DFFF;
      [json.loads] makes one from an escape such as [\ud800]), which UTF-8
      does not encode: it is kept as the three bytes the error handler
      [surrogatepass] gives it.  So [s.encode('utf-8')] is the string itself
      when it holds no surrogate, and raises [UnicodeEncodeError] when it
      does.
    - [str.lower] and [str()] of a value that is not a string are builtins of
      the interpreter; the development is parametric in them (Section
      variables [lower] and [str_of]).  [ascii_lower] is the instance used to
      run the scenarios.
    - Values whose type the script does not fix (what the JSON API returns)
      are [pyval]s, with the JSON numbers taken as integers; a dict with
      string keys that is only read is an association list (first binding
      wins) or a [gmap].
    - [print] always succeeds; what is printed is kept as a [log_line].
    - The trace also records each invocation of a fetcher or notifier
      ([Call]), so that the properties can count them.
    - Code that talks to the outside runs in the monad [M]: a state monad on
      the trace of events, with exceptions.  The answers of the outside world
      are given by a [World], a function of the trace so far and the
      request.  The [email] package builds and serialises the message; what
      it answers is the world's too, as a function of its arguments alone. *)

From Stdlib Require Import ZArith List Ascii String Bool Lia.
From stdpp Require Import base option list strings pretty gmap.

Import ListNotations.
Local Open Scope Z_scope.
Local Open Scope string_scope.
Local Open Scope list_scope.
Local Set Warnings "-register-all".

(** ** Strings *)

Module Str.

(** [needle in hay] of Python, on strings. *)
Fixpoint startswith (hay needle : string) {struct needle} : bool :=
  match needle, hay with
  | EmptyString, _ => true
  | String c needle', String d hay' => Ascii.eqb c d && startswith hay' needle'
  | String _ _, EmptyString => false
  end.

Fixpoint contains (needle hay : string) : bool :=
  startswith hay needle ||
  match hay with
  | EmptyString => false
  | String _ hay' => contains needle hay'
  end.

(** The property [contains] decides: [needle] occurs in [hay]. *)
Definition Occurs (needle hay : string) : Prop :=
  exists pre post, hay = pre +:+ needle +:+ post.

(** [sep.join(parts)]. *)
Fixpoint join (sep : string) (parts : list string) : string :=
  match parts with
  | [] => ""
  | [p] => p
  | p :: ps => p +:+ sep +:+ join sep ps
  end.

(** Lowercasing of the ASCII letters, every other byte kept. *)
Definition lower_ascii (c : ascii) : ascii :=
  let n := nat_of_ascii c in
  if ((65 <=? n)%nat && (n <=? 90)%nat)%bool then ascii_of_nat (n + 32) else c.

Fixpoint ascii_lower (s : string) : string :=
  match s with
  | EmptyString => EmptyString
  | String c s' => String (lower_ascii c) (ascii_lower s')
  end.

(** Python's truth value of a string. *)
Definition truthy (s : string) : bool :=
  match s with EmptyString => false | _ => true end.

(** The string holds a surrogate: the byte 0xED followed by a byte from 0xA0
    to 0xBF (the code points from U+D000 to U+D7FF have 0xED followed by a
    byte from 0x80 to 0x9F). *)
Fixpoint has_surrogate (s : string) : bool :=
  match s with
  | EmptyString => false
  | String c s' =>
      match s' with
      | EmptyString => false
      | String d _ =>
          ((nat_of_ascii c =? 237)%nat
           && (160 <=? nat_of_ascii d)%nat && (nat_of_ascii d <=? 191)%nat)%bool
          || has_surrogate s'
      end
  end.

(** UTF-8 encodes the string. *)
Definition encodable (s : string) : bool := negb (has_surrogate s).

(** U+D800 and U+DFFF are surrogates; U+D7FF, U+E000 and U+1F600 are not. *)
Example has_surrogate_d800 :
  has_surrogate (String "237" (String "160" (String "128" ""))) = true.
Proof. reflexivity. Qed.

Example has_surrogate_dfff :
  has_surrogate (String "a" (String "237" (String "191" (String "191" "b")))) = true.
Proof. reflexivity. Qed.

Example has_surrogate_others :
  has_surrogate (String "237" (String "159" (String "191" ""))) = false
  /\ has_surrogate (String "238" (String "128" (String "128" ""))) = false
  /\ has_surrogate (String "240" (String "159" (String "152" (String "128" "")))) = false
  /\ has_surrogate "https://example.com/job/1" = false.
Proof. repeat split. Qed.

Lemma app_nil_l s : "" +:+ s = s.
Proof. reflexivity. Qed.

Lemma app_cons c s t : String c s +:+ t = String c (s +:+ t).
Proof. reflexivity. Qed.

Lemma startswith_spec hay needle :
  startswith hay needle = true <-> exists post, hay = needle +:+ post.
Proof.
  revert hay; induction needle as [|c needle IH]; intros hay; simpl.
  - split; [intros _; exists hay; reflexivity | reflexivity].
  - destruct hay as [|d hay].
    + split; [discriminate | intros [post Hp]; discriminate].
    + rewrite andb_true_iff, Ascii.eqb_eq, IH. split.
      * intros [-> [post ->]]. exists post. reflexivity.
      * intros [post Hp]. rewrite app_cons in Hp. injection Hp as -> ->. eauto.
Qed.

Lemma contains_spec needle hay : contains needle hay = true <-> Occurs needle hay.
Proof.
  induction hay as [|d hay IH]; simpl.
  - rewrite orb_false_r, startswith_spec. split.
    + intros [post Hp]. exists "", post. exact Hp.
    + intros [pre [post Hp]]. destruct pre; [by exists post | discriminate].
  - rewrite orb_true_iff, startswith_spec, IH. split.
    + intros [[post Hp] | [pre [post Hp]]].
      * exists "", post. exact Hp.
      * exists (String d pre), post. rewrite app_cons. by rewrite Hp.
    + intros [pre [post Hp]]. destruct pre as [|e pre].
      * left. by exists post.
      * right. exists pre, post. rewrite app_cons in Hp. congruence.
Qed.

Lemma contains_empty hay : contains "" hay = true.
Proof. destruct hay; reflexivity. Qed.

End Str.

(** ** SHA-1 ([hashlib.sha1], FIPS 180-4) on 32-bit words held in [Z] *)

Module Sha1.

Definition wrap32 (x : Z) : Z := Z.land x 4294967295.

Definition add32 (x y : Z) : Z := wrap32 (x + y).

Definition rotl (n x : Z) : Z :=
  wrap32 (Z.lor (Z.shiftl x n) (Z.shiftr x (32 - n))).

Definition not32 (x : Z) : Z := Z.lxor x 4294967295.

Definition bytes_of_string (s : string) : list Z :=
  List.map (fun c => Z.of_N (N_of_ascii c)) (list_ascii_of_string s).

(** The [n] low bytes of [x], most significant first. *)
Fixpoint be_bytes (n : nat) (x : Z) : list Z :=
  match n with
  | O => []
  | S n' => be_bytes n' (Z.shiftr x 8) ++ [Z.land x 255]
  end.

Definition be_word (bs : list Z) : Z :=
  List.fold_left (fun acc b => Z.lor (Z.shiftl acc 8) b) bs 0.

(** Message padding: a one bit, zeros up to 56 mod 64, the bit length. *)
Definition pad (msg : list Z) : list Z :=
  let len := Z.of_nat (length msg) in
  let zeros := Z.to_nat ((55 - len) mod 64) in
  msg ++ [128] ++ List.repeat 0 zeros ++ be_bytes 8 (8 * len).

Fixpoint words (n : nat) (bs : list Z) : list Z :=
  match n with
  | O => []
  | S n' => be_word (firstn 4 bs) :: words n' (skipn 4 bs)
  end.

(** The message schedule, newest word first: [n] more words are added. *)
Fixpoint schedule (n : nat) (rev_ws : list Z) : list Z :=
  match n with
  | O => rev_ws
  | S n' =>
      let w := rotl 1 (Z.lxor (Z.lxor (nth 2 rev_ws 0) (nth 7 rev_ws 0))
                              (Z.lxor (nth 13 rev_ws 0) (nth 15 rev_ws 0))) in
      schedule n' (w :: rev_ws)
  end.

Definition state : Type := Z * Z * Z * Z * Z.

Definition round (t : nat) (st : state) (w : Z) : state :=
  let '(a, b, c, d, e) := st in
  let '(f, k) :=
    if (t <? 20)%nat then (Z.lor (Z.land b c) (Z.land (not32 b) d), 1518500249)
    else if (t <? 40)%nat then (Z.lxor (Z.lxor b c) d, 1859775393)
    else if (t <? 60)%nat then
      (Z.lor (Z.lor (Z.land b c) (Z.land b d)) (Z.land c d), 2400959708)
    else (Z.lxor (Z.lxor b c) d, 3395469782) in
  let tmp := add32 (add32 (add32 (add32 (rotl 5 a) f) e) k) w in
  (tmp, a, rotl 30 b, c, d).

Fixpoint rounds (t : nat) (ws : list Z) (st : state) : state :=
  match ws with
  | [] => st
  | w :: ws' => rounds (S t) ws' (round t st w)
  end.

Definition compress (h : state) (block : list Z) : state :=
  let ws := List.rev (schedule 64 (List.rev (words 16 block))) in
  let '(a, b, c, d, e) := rounds 0 ws h in
  let '(h0, h1, h2, h3, h4) := h in
  (add32 h0 a, add32 h1 b, add32 h2 c, add32 h3 d, add32 h4 e).

Fixpoint blocks (fuel : nat) (bs : list Z) (h : state) : state :=
  match fuel, bs with
  | S fuel', _ :: _ => blocks fuel' (skipn 64 bs) (compress h (firstn 64 bs))
  | _, _ => h
  end.

Definition init : state :=
  (1732584193, 4023233417, 2562383102, 271733878, 3285377520).

Definition digest_state (msg : list Z) : state :=
  let p := pad msg in blocks (length p) p init.

Definition hex_digit (n : Z) : ascii :=
  match String.get (Z.to_nat (Z.land n 15)) "0123456789abcdef" with
  | Some c => c
  | None => "0"%char
  end.

Definition is_hex_digit (c : ascii) : bool :=
  Str.contains (String c "") "0123456789abcdef".

Definition hex_byte (b : Z) (rest : string) : string :=
  String (hex_digit (Z.shiftr b 4)) (String (hex_digit b) rest).

Definition hex_word (w : Z) (rest : string) : string :=
  List.fold_right hex_byte rest (be_bytes 4 w).

(** [hashlib.sha1(msg).hexdigest()] *)
Definition hexdigest (msg : list Z) : string :=
  let '(h0, h1, h2, h3, h4) := digest_state msg in
  hex_word h0 (hex_word h1 (hex_word h2 (hex_word h3 (hex_word h4 "")))).

Example hexdigest_empty :
  hexdigest [] = "da39a3ee5e6b4b0d3255bfef95601890afd80709".
Proof. vm_compute. reflexivity. Qed.

Example hexdigest_abc :
  hexdigest (bytes_of_string "abc") = "a9993e364706816aba3e25717850c26c9cd0d89d".
Proof. vm_compute. reflexivity. Qed.

Example hexdigest_two_blocks :
  hexdigest (bytes_of_string
    "abcdbcdecdefdefgefghfghighijhijkijkljklmklmnlmnomnopnopq")
  = "84983e441c3bd26ebaae4aa1f95129e5e54670f1".
Proof. vm_compute. reflexivity. Qed.

End Sha1.

(** The shape of a digest does not depend on the message. *)

Module Sha1Facts.
Import Sha1.

Fixpoint all_chars (p : ascii -> bool) (s : string) : bool :=
  match s with
  | EmptyString => true
  | String c s' => p c && all_chars p s'
  end.

Lemma be_bytes_length n x : length (be_bytes n x) = n.
Proof.
  revert x; induction n as [|n IH]; intros x; simpl; [reflexivity|].
  rewrite length_app, IH. simpl. lia.
Qed.

Lemma hex_digit_is_hex n : is_hex_digit (hex_digit n) = true.
Proof.
  unfold hex_digit.
  assert (Hb : (Z.to_nat (Z.land n 15) < 16)%nat).
  { assert (0 <= Z.land n 15 < 16).
    { change 15 with (Z.ones 4). rewrite Z.land_ones by lia.
      apply Z.mod_pos_bound. lia. }
    lia. }
  generalize dependent (Z.to_nat (Z.land n 15)). intros k Hk.
  do 16 (destruct k as [|k]; [reflexivity|]). lia.
Qed.

Lemma hex_byte_length b rest :
  String.length (hex_byte b rest) = S (S (String.length rest)).
Proof. reflexivity. Qed.

Lemma hex_byte_all b rest :
  all_chars is_hex_digit rest = true ->
  all_chars is_hex_digit (hex_byte b rest) = true.
Proof.
  intros H. unfold hex_byte. simpl. by rewrite !hex_digit_is_hex, H.
Qed.

Lemma hex_bytes_length bs rest :
  String.length (List.fold_right hex_byte rest bs)
  = (2 * length bs + String.length rest)%nat.
Proof.
  induction bs as [|b bs IH]; simpl; [reflexivity|].
  rewrite IH. lia.
Qed.

Lemma hex_bytes_all bs rest :
  all_chars is_hex_digit rest = true ->
  all_chars is_hex_digit (List.fold_right hex_byte rest bs) = true.
Proof.
  intros H. induction bs as [|b bs IH]; simpl; [exact H|].
  by apply hex_byte_all.
Qed.

Lemma hex_word_length w rest :
  String.length (hex_word w rest) = (8 + String.length rest)%nat.
Proof. unfold hex_word. rewrite hex_bytes_length, be_bytes_length. lia. Qed.

Lemma hexdigest_length msg : String.length (hexdigest msg) = 40%nat.
Proof.
  unfold hexdigest. destruct (digest_state msg) as [[[[h0 h1] h2] h3] h4].
  rewrite !hex_word_length. reflexivity.
Qed.

Lemma hexdigest_hex msg : all_chars is_hex_digit (hexdigest msg) = true.
Proof.
  unfold hexdigest. destruct (digest_state msg) as [[[[h0 h1] h2] h3] h4].
  unfold hex_word. repeat apply hex_bytes_all. reflexivity.
Qed.

End Sha1Facts.

(** ** Python values, exceptions and the outside world *)

(** A value of no fixed type: what [r.json()] returns. *)
Inductive pyval : Type :=
| PNone
| PBool (b : bool)
| PInt (n : Z)
| PStr (s : string)
| PList (items : list pyval)
| PDict (fields : list (string * pyval)).

(** The exceptions the script can meet; all are subclasses of [Exception]. *)
Inductive exn : Type :=
| ConnectionError
| Timeout
| HTTPError (status : Z)
| JSONDecodeError
| TypeError
| AttributeError
| UnicodeEncodeError
| SMTPException
| OSError.

Inductive outcome (A : Type) : Type :=
| Returns (a : A)
| Raises (e : exn).
Arguments Returns {A} a.
Arguments Raises {A} e.

#[global] Instance outcome_ret : MRet outcome := fun A a => Returns a.
#[global] Instance outcome_bind : MBind outcome := fun A B f m =>
  match m with
  | Returns a => f a
  | Raises e => Raises e
  end.

Module Py.

(** Truth value of a value: [if v], [v or w], [not v]. *)
Definition truthy (v : pyval) : bool :=
  match v with
  | PNone => false
  | PBool b => b
  | PInt n => negb (Z.eqb n 0)
  | PStr s => Str.truthy s
  | PList items => match items with [] => false | _ => true end
  | PDict fields => match fields with [] => false | _ => true end
  end.

(** [a or b] *)
Definition or (a b : pyval) : pyval := if truthy a then a else b.

(** [d.get(key)] as an [option]; the first binding of a key is its value. *)
Fixpoint lookup (key : string) (d : list (string * pyval)) : option pyval :=
  match d with
  | [] => None
  | (k, v) :: d' => if String.eqb k key then Some v else lookup key d'
  end.

(** [d.get(key)] and [d.get(key, dflt)] *)
Definition get (d : list (string * pyval)) (key : string) : pyval :=
  default PNone (lookup key d).
Definition get_default (d : list (string * pyval)) (key : string) (dflt : pyval) : pyval :=
  default dflt (lookup key d).

(** [key in d] *)
Definition has_key (key : string) (d : list (string * pyval)) : bool :=
  match lookup key d with Some _ => true | None => false end.

(** [s.encode('utf-8')] *)
Definition encode_utf8 (s : string) : outcome string :=
  if Str.has_surrogate s then Raises UnicodeEncodeError else Returns s.

(** The items a [for] loop over [v] visits; a value that is not iterable
    raises [TypeError]. *)
Definition iter (v : pyval) : outcome (list pyval) :=
  match v with
  | PList items => Returns items
  | PDict fields => Returns (List.map (fun kv => PStr (fst kv)) fields)
  | PStr s => Returns (List.map (fun c => PStr (String c "")) (list_ascii_of_string s))
  | PNone | PBool _ | PInt _ => Raises TypeError
  end.

End Py.

(** The uniform job record the fetchers build (a dict in the script). *)
Record JobRecord : Type := {
  id : string;
  title : pyval;
  link : pyval;
  description : pyval;
  source : string;
  matches : list string;
}.

(** The CONFIG block of the script. *)
Record Config : Type := {
  DB_PATH : string;
  KEYWORDS : list string;
  SOURCES : gmap string bool;
  CUSTOM_FEEDS : list string;
  TELEGRAM_BOT_TOKEN : string;
  TELEGRAM_CHAT_ID : string;
  SMTP_HOST : string;
  SMTP_PORT : Z;
  SMTP_USER : string;
  SMTP_PASS : string;
  EMAIL_TO : string;
  EMAIL_FROM : string;
  MIN_KEYWORD_MATCH : Z;
  USER_AGENT : string;
}.

(** The values the script ships with. *)
Definition shipped_config : Config := {|
  DB_PATH := "jobs_seen.db";
  KEYWORDS := ["python"; "django"; "fastapi"; "fast job"; "freelancing job"; "freelance"];
  SOURCES := {[ "remoteok" := true; "custom_feeds" := true ]};
  CUSTOM_FEEDS :=
    [ "https://weworkremotely.com/categories/remote-programming-jobs.rss";
      "https://stackoverflow.com/jobs/feed?tags=python;django&sort=i";
      "https://remotive.io/remote-jobs/software-dev.rss";
      "https://pythonjobs.github.io/feed.xml";
      "https://jobs.github.com/positions.atom?description=python&location=";
      "https://www.django-coders.com/jobs/rss";
      "https://www.djangojobs.net/feed/";
      "https://pythonremotejobs.com/feed/";
      "https://www.workintech.io/jobs/feed/?categories=python";
      "https://www.freedjangojobs.com/feed/";
      "https://remote4me.com/remote-dev-jobs/rss/" ];
  TELEGRAM_BOT_TOKEN := "";
  TELEGRAM_CHAT_ID := "";
  SMTP_HOST := "smtp.gmail.com";
  SMTP_PORT := 587;
  SMTP_USER := "";
  SMTP_PASS := "";
  EMAIL_TO := "";
  EMAIL_FROM := "";
  MIN_KEYWORD_MATCH := 1;
  USER_AGENT := "JobWatcherBot/1.0 (+https://example.com)";
|}.

(** The functions of the script whose invocations the trace records. *)
Inductive func : Type :=
| FetchRemoteok
| FetchRssFeed (feed_url : string)
| FetchIndeedRss
| FetchCustomFeeds
| NotifyTelegram
| NotifyEmail.

(** The lines the script prints. *)
Inductive log_line : Type :=
| LogCheckingRemoteOK
| LogCheckingIndeed
| LogCheckingCustomFeeds
| LogRemoteOKError (e : exn)
| LogRssError (feed_url : string) (e : exn)
| LogTelegramFailed (e : exn)
| LogEmailFailed (e : exn)
| LogNoNewJobs
| LogFound (n : nat)
| LogNotifiedTelegram
| LogNotifiedEmail
| LogNotSent.

(** The steps of the SMTP session of [notify_email]; [sendmail] has one
    recipient and the serialised message. *)
Inductive smtp_op : Type :=
| SmtpConnect (host : string) (port : Z) (timeout : Z)
| SmtpStartTls
| SmtpLogin (user password : string)
| SmtpSendmail (frm to msg : string)
| SmtpQuit.

(** The message [notify_email] builds: the text [MIMEText] was given, and
    the headers the script sets, in the order it sets them. *)
Record Message : Type := {
  payload : string;
  headers : list (string * string);
}.

Inductive event : Type :=
| Call (f : func)
| Print (l : log_line)
| HttpGet (url user_agent : string) (timeout : Z)
| FeedParse (url : string)
| HttpPost (url chat_id text : string) (timeout : Z)
| Smtp (op : smtp_op).

Definition trace : Type := list event.

(** What [requests] hands back: the status line and the body as JSON, [None]
    when the body is not JSON. *)
Record Response : Type := {
  status_code : Z;
  json_body : option pyval;
}.

(** What [feedparser.parse] hands back.  An entry is the map of the fields
    feedparser found, each a string; [entries] is [None] when the object has
    no such attribute. *)
Record Feed : Type := {
  entries : option (list (gmap string string));
}.

(** The collaborators.  Each answer may be an exception.  The answers of
    [requests], [feedparser] and [smtplib] may depend on everything that
    happened before.  Those of the [email] package depend on what it is
    given only: [mime_text body] is [MIMEText(body, "html", "utf-8")] and
    [mime_header subject] is [Header(subject, 'utf-8')], which accept their
    text or raise; [as_string msg] is [msg.as_string()]. *)
Record World : Type := {
  requests_get : trace -> string -> string -> Z -> outcome Response;
  feedparser_parse : trace -> string -> outcome Feed;
  requests_post : trace -> string -> string -> string -> Z -> outcome Response;
  smtplib : trace -> smtp_op -> outcome unit;
  mime_text : string -> outcome unit;
  mime_header : string -> outcome unit;
  as_string : Message -> outcome string;
}.

(** ** The monad of the script: a trace of events, and exceptions *)

Definition M (A : Type) : Type := trace -> outcome A * trace.

#[global] Instance M_ret : MRet M := fun A a t => (Returns a, t).
#[global] Instance M_bind : MBind M := fun A B f m t =>
  match m t with
  | (Returns a, t') => f a t'
  | (Raises e, t') => (Raises e, t')
  end.

Module Eff.

(** A computation without effects, inside [M]. *)
Definition lift {A} (o : outcome A) : M A := fun t => (o, t).

Definition emit (ev : event) : M unit := fun t => (Returns tt, t ++ [ev]).

(** A call to a collaborator: the request is recorded, the answer is the
    world's. *)
Definition ask {A} (ev : event) (answer : trace -> outcome A) : M A :=
  fun t => (answer t, t ++ [ev]).

(** [try: body except Exception as e: handler(e)] *)
Definition try_except {A} (body : M A) (handler : exn -> M A) : M A :=
  fun t =>
    match body t with
    | (Returns a, t') => (Returns a, t')
    | (Raises e, t') => handler e t'
    end.

(** A [for] loop that threads an accumulator. *)
Fixpoint for_each {A S} (xs : list A) (body : S -> A -> M S) (s : S) : M S :=
  match xs with
  | [] => mret s
  | x :: xs' => s' ← body s x; for_each xs' body s'
  end.

Fixpoint for_each_pure {A S} (xs : list A) (body : S -> A -> outcome S) (s : S)
  : outcome S :=
  match xs with
  | [] => mret s
  | x :: xs' => s' ← body s x; for_each_pure xs' body s'
  end.

(** [r.raise_for_status()] *)
Definition raise_for_status (r : Response) : outcome unit :=
  if Z.leb 400 (status_code r) && Z.ltb (status_code r) 600
  then Raises (HTTPError (status_code r)) else Returns tt.

(** [r.json()] *)
Definition json (r : Response) : outcome pyval :=
  match json_body r with
  | Some v => Returns v
  | None => Raises JSONDecodeError
  end.

End Eff.

(** ** Runs of a computation *)

Module Run.

(** [m], started after [t], ends with [o] and has added the events [d]. *)
Definition exec {A} (m : M A) (t : trace) (o : outcome A) (d : trace) : Prop :=
  m t = (o, t ++ d).

(** The invocations recorded in a trace, in order. *)
Definition calls_of (d : trace) : list func :=
  omap (fun ev => match ev with Call f => Some f | _ => None end) d.

Definition func_eqb (f g : func) : bool :=
  match f, g with
  | FetchRemoteok, FetchRemoteok
  | FetchIndeedRss, FetchIndeedRss
  | FetchCustomFeeds, FetchCustomFeeds
  | NotifyTelegram, NotifyTelegram
  | NotifyEmail, NotifyEmail => true
  | FetchRssFeed u, FetchRssFeed v => String.eqb u v
  | _, _ => false
  end.

(** How many times [f] was invoked in [d]. *)
Definition invocations (f : func) (d : trace) : nat :=
  length (List.filter (func_eqb f) (calls_of d)).

Lemma calls_of_app d1 d2 : calls_of (d1 ++ d2) = calls_of d1 ++ calls_of d2.
Proof. unfold calls_of. apply omap_app. Qed.

Lemma invocations_app f d1 d2 :
  invocations f (d1 ++ d2) = (invocations f d1 + invocations f d2)%nat.
Proof.
  unfold invocations. by rewrite calls_of_app, List.filter_app, length_app.
Qed.

Lemma invocations_feeds f feeds :
  (forall u, f <> FetchRssFeed u) ->
  List.filter (func_eqb f) (List.map FetchRssFeed feeds) = [].
Proof.
  intros Hf. induction feeds as [|u feeds IH]; simpl; [reflexivity|].
  rewrite IH. destruct f; try reflexivity. by destruct (Hf feed_url).
Qed.

Lemma exec_ret {A} (a : A) t : exec (mret a) t (Returns a) [].
Proof. unfold exec. by rewrite app_nil_r. Qed.

Lemma exec_lift {A} (o : outcome A) t : exec (Eff.lift o) t o [].
Proof. unfold exec, Eff.lift. by rewrite app_nil_r. Qed.

Lemma exec_emit ev t : exec (Eff.emit ev) t (Returns tt) [ev].
Proof. reflexivity. Qed.

Lemma exec_ask {A} ev (answer : trace -> outcome A) t :
  exec (Eff.ask ev answer) t (answer t) [ev].
Proof. reflexivity. Qed.

Lemma exec_bind {A B} (m : M A) (f : A -> M B) t a d1 o d2 :
  exec m t (Returns a) d1 -> exec (f a) (t ++ d1) o d2 ->
  exec (m ≫= f) t o (d1 ++ d2).
Proof.
  unfold exec, mbind, M_bind. intros -> ->. by rewrite app_assoc.
Qed.

Lemma exec_bind_raises {A B} (m : M A) (f : A -> M B) t e d :
  exec m t (Raises e) d -> exec (m ≫= f) t (Raises e) d.
Proof. unfold exec, mbind, M_bind. by intros ->. Qed.

Lemma exec_try_returns {A} (m : M A) h t a d :
  exec m t (Returns a) d -> exec (Eff.try_except m h) t (Returns a) d.
Proof. unfold exec, Eff.try_except. by intros ->. Qed.

Lemma exec_try_raises {A} (m : M A) h t e d1 o d2 :
  exec m t (Raises e) d1 -> exec (h e) (t ++ d1) o d2 ->
  exec (Eff.try_except m h) t o (d1 ++ d2).
Proof. unfold exec, Eff.try_except. intros -> ->. by rewrite app_assoc. Qed.

Lemma exec_emit_ret {A} ev (a : A) t :
  exec (Eff.emit ev;; mret a) t (Returns a) [ev].
Proof. reflexivity. Qed.

Lemma exec_det {A} (m : M A) t o1 d1 o2 d2 :
  exec m t o1 d1 -> exec m t o2 d2 -> o1 = o2 /\ d1 = d2.
Proof.
  unfold exec. intros H1 H2. rewrite H1 in H2. injection H2 as -> Hd.
  split; [reflexivity | by apply app_inv_head in Hd].
Qed.

End Run.

(** ** Settings and worlds to run the script on *)

Module Demo.

(** [str()] on the values the runs below print: integers, [None], booleans. *)
Definition str_of (v : pyval) : string :=
  match v with
  | PInt n => pretty n
  | PNone => "None"
  | PBool true => "True"
  | PBool false => "False"
  | _ => ""
  end.

(** The code point U+D800 alone, as [json.loads] gives it for the escape
    [\ud800]. *)
Definition lone_surrogate : string := String "237" (String "160" (String "128" "")).

Definition python_entry : gmap string string :=
  {[ "title" := "Senior Python Developer";
     "link" := "https://jobs.example/1";
     "summary" := "Django and FastAPI" ]}.

(** An entry with a title and nothing else. *)
Definition title_only_entry : gmap string string :=
  {[ "title" := "Django contractor" ]}.


Definition ok_response : Response := {| status_code := 200; json_body := None |}.

(** The [email] package of the worlds below, kept simple: a text that UTF-8
    cannot encode is refused, so is a header value when the message is
    serialised, and the message is serialised to the headers the script
    set, an empty line and its text (the package adds headers of its own and
    encodes the text). *)
Definition accepts_text (s : string) : outcome unit :=
  if Str.has_surrogate s then Raises UnicodeEncodeError else Returns tt.

Definition header_line (h : string * string) : string :=
  fst h +:+ ": " +:+ snd h +:+ String "010" "".

Definition serialise (m : Message) : outcome string :=
  if existsb (fun h => Str.has_surrogate (snd h)) (headers m)
  then Raises UnicodeEncodeError
  else Returns (Str.join "" (List.map header_line (headers m))
                +:+ String "010" (payload m)).

(** Nothing can be reached. *)
Definition offline : World := {|
  requests_get := fun _ _ _ _ => Raises ConnectionError;
  feedparser_parse := fun _ _ => Raises OSError;
  requests_post := fun _ _ _ _ _ => Raises Timeout;
  smtplib := fun _ _ => Raises SMTPException;
  mime_text := accepts_text;
  mime_header := accepts_text;
  as_string := serialise;
|}.

(** The API answers with [api]; every feed holds [es]; the chat bot and the
    mail server accept what they are sent. *)
Definition online (api : Response) (es : list (gmap string string)) : World := {|
  requests_get := fun _ _ _ _ => Returns api;
  feedparser_parse := fun _ _ => Returns {| entries := Some es |};
  requests_post := fun _ _ _ _ _ => Returns ok_response;
  smtplib := fun _ _ => Returns tt;
  mime_text := accepts_text;
  mime_header := accepts_text;
  as_string := serialise;
|}.

Definition api_of (data : pyval) : Response :=
  {| status_code := 200; json_body := Some data |}.

Definition with_sources (flags : gmap string bool) (feeds : list string) (c : Config)
  : Config :=
  {| DB_PATH := DB_PATH c; KEYWORDS := KEYWORDS c; SOURCES := flags;
     CUSTOM_FEEDS := feeds; TELEGRAM_BOT_TOKEN := TELEGRAM_BOT_TOKEN c;
     TELEGRAM_CHAT_ID := TELEGRAM_CHAT_ID c; SMTP_HOST := SMTP_HOST c;
     SMTP_PORT := SMTP_PORT c; SMTP_USER := SMTP_USER c; SMTP_PASS := SMTP_PASS c;
     EMAIL_TO := EMAIL_TO c; EMAIL_FROM := EMAIL_FROM c;
     MIN_KEYWORD_MATCH := MIN_KEYWORD_MATCH c; USER_AGENT := USER_AGENT c |}.

Definition with_credentials (token chat user password : string) (c : Config) : Config :=
  {| DB_PATH := DB_PATH c; KEYWORDS := KEYWORDS c; SOURCES := SOURCES c;
     CUSTOM_FEEDS := CUSTOM_FEEDS c; TELEGRAM_BOT_TOKEN := token;
     TELEGRAM_CHAT_ID := chat; SMTP_HOST := SMTP_HOST c;
     SMTP_PORT := SMTP_PORT c; SMTP_USER := user; SMTP_PASS := password;
     EMAIL_TO := "me@example.com"; EMAIL_FROM := user;
     MIN_KEYWORD_MATCH := MIN_KEYWORD_MATCH c; USER_AGENT := USER_AGENT c |}.

(** The flag of the custom feeds is off, and a feed is listed. *)
Definition flag_off : Config :=
  with_sources {[ "remoteok" := true; "custom_feeds" := false ]}
    ["https://feeds.example/jobs.rss"] shipped_config.

(** The flag of the custom feeds is on, and no feed is listed. *)
Definition no_feeds : Config :=
  with_sources {[ "remoteok" := true; "custom_feeds" := true ]} [] shipped_config.

Definition one_feed : Config :=
  with_sources ∅ ["https://feeds.example/jobs.rss"] shipped_config.

End Demo.

(** ** The script *)

Section JobAgent.

(** [str.lower] and [str()] on a value that is not a string. *)
Variable lower : string -> string.
Variable str_of : pyval -> string.

Variable W : World.
Variable cfg : Config.

(** What an f-string puts for [{v}]. *)
Definition fmt (v : pyval) : string :=
  match v with
  | PStr s => s
  | _ => str_of v
  end.

(** *** The seen-store, disabled *)

Definition init_db (path : string) : pyval := PNone.

Definition seen_contains (conn : pyval) (_id : string) : bool := false.

Definition mark_seen (conn : pyval) (_id : string) (title link : pyval) (source : string)
  : M unit :=
  mret tt.

(** *** Identifiers and matching *)

Definition make_id (text : pyval) : outcome string :=
  match Py.or text (PStr "") with
  | PStr s =>
      data ← Py.encode_utf8 s;
      Returns (Sha1.hexdigest (Sha1.bytes_of_string data))
  | _ => Raises AttributeError
  end.

Definition keywords_match (text : option string) (keywords : list string) (min_match : Z)
  : list string :=
  let text_l := lower (default "" text) in
  let found := List.filter (fun k => Str.contains (lower k) text_l) keywords in
  if Z.geb (Z.of_nat (length found)) min_match then found else [].

(** *** Source fetchers *)

Definition remoteok_url : string := "https://remoteok.com/api".

(** The body of the loop of [fetch_remoteok]. *)
Definition remoteok_item (keywords : list string) (results : list JobRecord)
    (item : pyval) : outcome (list JobRecord) :=
  match item with
  | PDict d =>
      if Py.has_key "position" d || Py.has_key "title" d then
        let title := Py.or (Py.or (Py.get d "position") (Py.get d "title")) (PStr "") in
        let description := Py.get_default d "description" (PStr "") in
        let company := Py.get_default d "company" (PStr "") in
        let link := Py.or (Py.or (Py.get d "url") (Py.get d "apply_url")) (PStr "") in
        let combined := fmt title +:+ " " +:+ fmt company +:+ " " +:+ fmt description in
        let matches := keywords_match (Some combined) keywords (MIN_KEYWORD_MATCH cfg) in
        match matches with
        | [] => Returns results
        | _ =>
            _id ← make_id (Py.or link title);
            Returns (results ++
              [ {| id := _id; title := title; link := link;
                   description := description; source := "remoteok";
                   matches := matches |} ])
        end
      else Returns results
  | _ => Returns results
  end.

(** The [try] block of [fetch_remoteok]. *)
Definition fetch_remoteok_try (keywords : list string) : M (list JobRecord) :=
  r ← Eff.ask (HttpGet remoteok_url (USER_AGENT cfg) 15)
        (fun t => requests_get W t remoteok_url (USER_AGENT cfg) 15);
  Eff.lift (Eff.raise_for_status r);;
  data ← Eff.lift (Eff.json r);
  items ← Eff.lift (Py.iter data);
  Eff.lift (Eff.for_each_pure items (remoteok_item keywords) []).

Definition fetch_remoteok (keywords : list string) : M (list JobRecord) :=
  Eff.emit (Call FetchRemoteok);;
  Eff.try_except (fetch_remoteok_try keywords)
    (fun e => Eff.emit (Print (LogRemoteOKError e));; mret []).

(** [entry.get(key, '')] *)
Definition entry_get (entry : gmap string string) (key : string) : string :=
  default "" (entry !! key).

(** The body of the loop of [fetch_rss_feed]. *)
Definition rss_entry (feed_url : string) (keywords : list string)
    (results : list JobRecord) (entry : gmap string string) : outcome (list JobRecord) :=
  let title := entry_get entry "title" in
  let link := entry_get entry "link" in
  let summary := entry_get entry "summary" in
  let combined := title +:+ " " +:+ summary in
  let matches := keywords_match (Some combined) keywords (MIN_KEYWORD_MATCH cfg) in
  match matches with
  | [] => Returns results
  | _ =>
      _id ← make_id (Py.or (PStr link) (PStr title));
      Returns (results ++
        [ {| id := _id; title := PStr title; link := PStr link;
             description := PStr summary; source := feed_url;
             matches := matches |} ])
  end.

(** The [try] block of [fetch_rss_feed]. *)
Definition fetch_rss_feed_try (feed_url : string) (keywords : list string)
  : M (list JobRecord) :=
  feed ← Eff.ask (FeedParse feed_url) (fun t => feedparser_parse W t feed_url);
  Eff.lift (Eff.for_each_pure (default [] (entries feed))
              (rss_entry feed_url keywords) []).

Definition fetch_rss_feed (feed_url : string) (keywords : list string)
  : M (list JobRecord) :=
  Eff.emit (Call (FetchRssFeed feed_url));;
  Eff.try_except (fetch_rss_feed_try feed_url keywords)
    (fun e => Eff.emit (Print (LogRssError feed_url e));; mret []).

Definition indeed_url : string := "https://www.indeed.com/rss?q=python+django".

(** The query string [q] the script builds from the keywords is not used:
    the feed URL is fixed. *)
Definition fetch_indeed_rss (keywords : list string) : M (list JobRecord) :=
  Eff.emit (Call FetchIndeedRss);;
  fetch_rss_feed indeed_url keywords.

Definition fetch_custom_feeds (feeds : list string) (keywords : list string)
  : M (list JobRecord) :=
  Eff.emit (Call FetchCustomFeeds);;
  Eff.for_each feeds
    (fun results f => r ← fetch_rss_feed f keywords; mret (results ++ r)) [].

(** *** Notification helpers *)

Definition telegram_url (bot_token : string) : string :=
  "https://api.telegram.org/bot" +:+ bot_token +:+ "/sendMessage".

Definition notify_telegram (bot_token chat_id text : string) : M bool :=
  Eff.emit (Call NotifyTelegram);;
  if negb (Str.truthy bot_token) || negb (Str.truthy chat_id) then mret false
  else
    Eff.try_except
      (r ← Eff.ask (HttpPost (telegram_url bot_token) chat_id text 10)
             (fun t => requests_post W t (telegram_url bot_token) chat_id text 10);
       Eff.lift (Eff.raise_for_status r);;
       mret true)
      (fun e => Eff.emit (Print (LogTelegramFailed e));; mret false).

Definition smtp (op : smtp_op) : M unit :=
  Eff.ask (Smtp op) (fun t => smtplib W t op).

(** [msg] after the three assignments of [notify_email]. *)
Definition email_message (frm to subject body : string) : Message :=
  {| payload := body;
     headers := [("Subject", subject); ("From", frm); ("To", to)] |}.

Definition notify_email (smtp_host : string) (smtp_port : Z)
    (user password frm to subject body : string) : M bool :=
  Eff.emit (Call NotifyEmail);;
  Eff.try_except
    (Eff.lift (mime_text W body);;
     Eff.lift (mime_header W subject);;
     let msg := email_message frm to subject body in
     smtp (SmtpConnect smtp_host smtp_port 15);;
     smtp SmtpStartTls;;
     smtp (SmtpLogin user password);;
     text ← Eff.lift (as_string W msg);
     smtp (SmtpSendmail frm to text);;
     smtp SmtpQuit;;
     mret true)
    (fun e => Eff.emit (Print (LogEmailFailed e));; mret false).

(** *** Main agent *)

(** [for j in jobs: mark_seen(conn, ...); found_new.append(j)] *)
Definition collect (conn : pyval) (jobs found_new : list JobRecord)
  : M (list JobRecord) :=
  Eff.for_each jobs
    (fun found j =>
       mark_seen conn (id j) (title j) (link j) (source j);;
       mret (found ++ [j]))
    found_new.

(** [SOURCES.get(name)] as a condition. *)
Definition source_enabled (name : string) : bool :=
  default false (SOURCES cfg !! name).

Definition html_line (j : JobRecord) : string :=
  "<b>" +:+ fmt (title j) +:+ "</b>" +:+ String "010" "Matches: "
  +:+ Str.join ", " (matches j) +:+ String "010" (fmt (link j)).

Definition text_line (j : JobRecord) : string :=
  fmt (title j) +:+ " - " +:+ fmt (link j) +:+ String "010" "Matches: "
  +:+ Str.join ", " (matches j).

(** [run_once], steps 1 to 3: the enabled sources, one after the other. *)
Definition run_once_fetch : M (list JobRecord) :=
  let conn := PNone in
  let found_new := [] in
  found_new ←
    (if source_enabled "remoteok" then
       Eff.emit (Print LogCheckingRemoteOK);;
       jobs ← fetch_remoteok (KEYWORDS cfg);
       collect conn jobs found_new
     else mret found_new);
  found_new ←
    (if source_enabled "indeed_rss" then
       Eff.emit (Print LogCheckingIndeed);;
       jobs ← fetch_indeed_rss (KEYWORDS cfg);
       collect conn jobs found_new
     else mret found_new);
  match CUSTOM_FEEDS cfg with
  | _ :: _ =>
      Eff.emit (Print LogCheckingCustomFeeds);;
      jobs ← fetch_custom_feeds (CUSTOM_FEEDS cfg) (KEYWORDS cfg);
      collect conn jobs found_new
  | [] => mret found_new
  end.

Definition telegram_text (found_new : list JobRecord) : string :=
  Str.join (String "010" (String "010" "")) (List.map text_line found_new).

(** The chat-bot attempt of [run_once]; [false] when it is skipped. *)
Definition run_once_telegram (found_new : list JobRecord) : M bool :=
  if Str.truthy (TELEGRAM_BOT_TOKEN cfg) && Str.truthy (TELEGRAM_CHAT_ID cfg) then
    let text := telegram_text found_new in
    sent ← notify_telegram (TELEGRAM_BOT_TOKEN cfg) (TELEGRAM_CHAT_ID cfg) text;
    (if sent : bool then Eff.emit (Print LogNotifiedTelegram) else mret tt);;
    mret sent
  else mret false.

Definition email_subject (found_new : list JobRecord) : string :=
  str_of (PInt (Z.of_nat (length found_new))) +:+ " New Job(s) Matching Your Keywords".

Definition email_body (found_new : list JobRecord) : string :=
  Str.join "<br><br>" (List.map html_line found_new).

(** [run_once], "Summary and notifications". *)
Definition run_once_notify (found_new : list JobRecord) : M unit :=
  match found_new with
  | [] => Eff.emit (Print LogNoNewJobs)
  | _ =>
      Eff.emit (Print (LogFound (length found_new)));;
      let body := email_body found_new in
      let subject := email_subject found_new in
      sent ← run_once_telegram found_new;
      (if negb sent && Str.truthy (SMTP_USER cfg) && Str.truthy (SMTP_PASS cfg) then
         sent_email ← notify_email (SMTP_HOST cfg) (SMTP_PORT cfg) (SMTP_USER cfg)
                        (SMTP_PASS cfg) (EMAIL_FROM cfg) (EMAIL_TO cfg) subject body;
         if sent_email : bool then Eff.emit (Print LogNotifiedEmail) else mret tt
       else mret tt);;
      if negb sent then Eff.emit (Print LogNotSent) else mret tt
  end.

Definition run_once : M unit :=
  found_new ← run_once_fetch;
  run_once_notify found_new.

(** *** The vocabulary of the properties *)

(** Keyword [k] matches [text]: its lowercase form occurs in the lowercased
    text. *)
Definition Matches (text : option string) (k : string) : Prop :=
  Str.Occurs (lower k) (lower (default "" text)).

(** [r] is the subsequence of [ks] of the elements that satisfy [P], in the
    order of [ks]. *)
Inductive Selected (P : string -> Prop) : list string -> list string -> Prop :=
| Selected_nil : Selected P [] []
| Selected_keep k ks r : P k -> Selected P ks r -> Selected P (k :: ks) (k :: r)
| Selected_drop k ks r : ~ P k -> Selected P ks r -> Selected P (k :: ks) r.

(** The identifier is the digest of the link, of the title when the link is
    empty. *)
Definition id_from_link_or_title (r : JobRecord) : Prop :=
  if Py.truthy (link r) then make_id (link r) = Returns (id r)
  else make_id (title r) = Returns (id r).

(** The matched keywords are some, and each occurs in [combined]. *)
Definition matched_against (combined : string) (r : JobRecord) : Prop :=
  matches r <> []
  /\ Forall (fun k => Str.Occurs (lower k) (lower combined)) (matches r).

Definition remoteok_record_ok (r : JobRecord) : Prop :=
  id_from_link_or_title r
  /\ exists company,
       matched_against
         (fmt (title r) +:+ " " +:+ fmt company +:+ " " +:+ fmt (description r)) r.

Definition rss_record_ok (r : JobRecord) : Prop :=
  id_from_link_or_title r
  /\ matched_against (fmt (title r) +:+ " " +:+ fmt (description r)) r.

(** The invocations the fetch phase makes, in order. *)
Definition fetch_phase_calls : list func :=
  (if source_enabled "remoteok" then [FetchRemoteok] else [])
  ++ (if source_enabled "indeed_rss" then [FetchIndeedRss; FetchRssFeed indeed_url] else [])
  ++ match CUSTOM_FEEDS cfg with
     | [] => []
     | _ :: _ => FetchCustomFeeds :: List.map FetchRssFeed (CUSTOM_FEEDS cfg)
     end.

(** Both credentials of the chat bot, of the mail account, are set. *)
Definition telegram_configured : bool :=
  Str.truthy (TELEGRAM_BOT_TOKEN cfg) && Str.truthy (TELEGRAM_CHAT_ID cfg).
Definition smtp_configured : bool :=
  Str.truthy (SMTP_USER cfg) && Str.truthy (SMTP_PASS cfg).

(** What the notification phase does for a batch that is not empty, started
    after [t1]: [sent] is what the chat-bot attempt gave, [d1] the events of
    that attempt, [d2] the events after it. *)
Definition dispatch_spec (found : list JobRecord) (t1 : trace)
    (sent : bool) (d1 d2 : trace) : Prop :=
  (if telegram_configured then
     exists d',
       Run.exec (notify_telegram (TELEGRAM_BOT_TOKEN cfg) (TELEGRAM_CHAT_ID cfg)
                   (telegram_text found)) t1 (Returns sent) d'
       /\ d1 = d' ++ (if sent then [Print LogNotifiedTelegram] else [])
   else sent = false /\ d1 = [])
  /\ (if negb sent && smtp_configured then
        exists sent_email d',
          Run.exec (notify_email (SMTP_HOST cfg) (SMTP_PORT cfg) (SMTP_USER cfg)
                      (SMTP_PASS cfg) (EMAIL_FROM cfg) (EMAIL_TO cfg)
                      (email_subject found) (email_body found))
            (t1 ++ d1) (Returns sent_email) d'
          /\ d2 = d' ++ (if sent_email then [Print LogNotifiedEmail] else [])
                     ++ [Print LogNotSent]
      else d2 = if sent then [] else [Print LogNotSent])
  /\ Run.invocations NotifyTelegram (d1 ++ d2) = (if telegram_configured then 1 else 0)%nat
  /\ Run.invocations NotifyEmail (d1 ++ d2)
     = (if negb sent && smtp_configured then 1 else 0)%nat
  /\ (sent = true -> Run.invocations NotifyEmail (d1 ++ d2) = 0%nat)
  /\ (sent = false -> In (Print LogNotSent) (d1 ++ d2))
  /\ Run.calls_of (d1 ++ d2)
     = (if telegram_configured then [NotifyTelegram] else [])
       ++ (if negb sent && smtp_configured then [NotifyEmail] else []).

(** A field of a feed entry, the empty string when the entry lacks it. *)
Definition field_or_empty (entry : gmap string string) (key : string) : string :=
  match entry !! key with
  | Some s => s
  | None => ""
  end.

Definition entry_combined (entry : gmap string string) : string :=
  field_or_empty entry "title" +:+ " " +:+ field_or_empty entry "summary".

Definition entry_matches (keywords : list string) (entry : gmap string string)
  : list string :=
  keywords_match (Some (entry_combined entry)) keywords (MIN_KEYWORD_MATCH cfg).

(** The entry passes the keyword match. *)
Definition entry_kept (keywords : list string) (entry : gmap string string) : bool :=
  match entry_matches keywords entry with
  | [] => false
  | _ :: _ => true
  end.

(** The record of an entry that is kept. *)
Definition entry_record (feed_url : string) (keywords : list string)
    (entry : gmap string string) : JobRecord :=
  let title := field_or_empty entry "title" in
  let link := field_or_empty entry "link" in
  {| id := Sha1.hexdigest
             (Sha1.bytes_of_string (if Str.truthy link then link else title));
     title := PStr title;
     link := PStr link;
     description := PStr (field_or_empty entry "summary");
     source := feed_url;
     matches := entry_matches keywords entry |}.

(** What the identifier of an entry is made from: its link, its title when
    the link is empty or missing. *)
Definition entry_key (entry : gmap string string) : string :=
  let link := field_or_empty entry "link" in
  if Str.truthy link then link else field_or_empty entry "title".

(** UTF-8 encodes what the identifier of each entry that passes the keyword
    match is made from. *)
Definition entries_encodable (keywords : list string) (es : list (gmap string string))
  : bool :=
  forallb (fun e => Str.encodable (entry_key e)) (List.filter (entry_kept keywords) es).

(** The single-feed fetcher on each feed in turn. *)
Fixpoint fetch_each (feeds : list string) (keywords : list string)
  : M (list (list JobRecord)) :=
  match feeds with
  | [] => mret []
  | f :: feeds' =>
      r ← fetch_rss_feed f keywords;
      rs ← fetch_each feeds' keywords;
      mret (r :: rs)
  end.

(** The concatenation of what the single-feed fetcher returns on each feed,
    in the order of the feeds. *)
Definition concat_of_feeds (feeds : list string) (keywords : list string)
  : M (list JobRecord) :=
  rss ← fetch_each feeds keywords;
  mret (List.concat rss).

(** ** Properties *)

(** *** The keyword matcher *)

Lemma Selected_functional P ks r1 r2 :
  Selected P ks r1 -> Selected P ks r2 -> r1 = r2.
Proof.
  intros H1. revert r2.
  induction H1 as [|k ks r Hk _ IH|k ks r Hk _ IH]; intros r2 H2;
    inversion H2; subst; try contradiction; auto.
  f_equal. auto.
Qed.

Lemma Selected_In P ks r k :
  Selected P ks r -> In k r <-> In k ks /\ P k.
Proof.
  induction 1 as [|k' ks r Hk _ IH|k' ks r Hk _ IH]; simpl.
  - tauto.
  - rewrite IH. split; [intros [->|[? ?]]; auto | intros [[->|?] ?]; auto].
  - rewrite IH. split; [intros [? ?]; auto | intros [[->|?] ?]; auto; contradiction].
Qed.

Lemma Selected_filter text ks :
  Selected (Matches text) ks
    (List.filter (fun k => Str.contains (lower k) (lower (default "" text))) ks).
Proof.
  induction ks as [|k ks IH]; simpl; [constructor|].
  destruct (Str.contains _ _) eqn:Hc.
  - apply Selected_keep; [by apply Str.contains_spec | exact IH].
  - apply Selected_drop; [|exact IH].
    unfold Matches. rewrite <- Str.contains_spec, Hc. discriminate.
Qed.

Lemma keywords_match_found text ks min_match :
  keywords_match text ks min_match <> [] ->
  keywords_match text ks min_match
  = List.filter (fun k => Str.contains (lower k) (lower (default "" text))) ks.
Proof. unfold keywords_match. by destruct (Z.geb _ _). Qed.

Lemma keywords_match_occurs text ks min_match k :
  In k (keywords_match text ks min_match) -> In k ks /\ Matches text k.
Proof.
  intros Hin.
  assert (Hne : keywords_match text ks min_match <> []) by (intros E; by rewrite E in Hin).
  rewrite (keywords_match_found _ _ _ Hne) in Hin.
  by apply (Selected_In _ _ _ _ (Selected_filter text ks)).
Qed.

(** C1.  [keywords_match text keywords min_match] is the subsequence [found]
    of the keywords whose lowercase form occurs in the lowercased text, in
    the order of the keyword list, when [found] has at least [min_match]
    elements, and the empty list otherwise; with [min_match = 1] the result
    is non-empty iff some keyword of the list occurs in the text,
    case-insensitively. *)
Theorem keywords_match_spec (text : option string) (keywords : list string) (min_match : Z) :
  exists found,
    Selected (Matches text) keywords found
    /\ (forall found', Selected (Matches text) keywords found' -> found' = found)
    /\ (min_match <= Z.of_nat (length found) ->
        keywords_match text keywords min_match = found)
    /\ (Z.of_nat (length found) < min_match ->
        keywords_match text keywords min_match = [])
    /\ (keywords_match text keywords 1 <> []
        <-> exists k, In k keywords /\ Matches text k).
Proof.
  pose proof (Selected_filter text keywords) as Hsel.
  set (found := List.filter _ keywords) in Hsel.
  exists found. split; [exact Hsel|]. split.
  { intros found' H'. exact (Selected_functional _ _ _ _ H' Hsel). }
  unfold keywords_match. fold found.
  split; [|split].
  - intros Hle. rewrite Z.geb_leb. by rewrite (proj2 (Z.leb_le _ _) Hle).
  - intros Hlt. rewrite Z.geb_leb. by rewrite (proj2 (Z.leb_gt _ _) Hlt).
  - rewrite Z.geb_leb. destruct found as [|k found'] eqn:Hf.
    + simpl. split; [done|]. intros [k [Hk Hm]].
      destruct (proj2 (Selected_In _ _ _ k Hsel) (conj Hk Hm)).
    + assert (H1 : Z.leb 1 (Z.of_nat (length (k :: found'))) = true)
        by (apply Z.leb_le; simpl length; lia).
      rewrite H1. split; [|done]. intros _. exists k.
      apply (Selected_In _ _ _ k Hsel). by left.
Qed.

(** *** The identifier deriver *)

Lemma make_id_str s :
  make_id (PStr s)
  = if Str.has_surrogate s then Raises UnicodeEncodeError
    else Returns (Sha1.hexdigest (Sha1.bytes_of_string s)).
Proof.
  unfold make_id, Py.or, Py.encode_utf8, mbind, outcome_bind.
  destruct s as [|c s]; [reflexivity|]. cbn [Py.truthy Str.truthy].
  by destruct (Str.has_surrogate (String c s)).
Qed.

Lemma make_id_encodable s :
  Str.encodable s = true ->
  make_id (PStr s) = Returns (Sha1.hexdigest (Sha1.bytes_of_string s)).
Proof.
  unfold Str.encodable. intros Hs. rewrite make_id_str.
  by destruct (Str.has_surrogate s).
Qed.

Lemma make_id_falsy v :
  Py.truthy v = false ->
  make_id v = Returns "da39a3ee5e6b4b0d3255bfef95601890afd80709".
Proof.
  intros Hv. unfold make_id, Py.or. rewrite Hv.
  exact (f_equal Returns Sha1.hexdigest_empty).
Qed.

(** C7.  On every string that UTF-8 encodes (a string without a lone
    surrogate) [make_id] returns a digest, and does not raise: the digest is
    the value of a function of the string alone (equal inputs, equal
    digests), it has 40 characters, all of them hexadecimal digits; the
    empty string (and [None]) have the digest of the empty message, and the
    URL of the script's self-test has the digest SHA-1 gives it.  On a
    string that holds a lone surrogate [make_id] raises
    [UnicodeEncodeError], each time. *)
Theorem make_id_digest (s : string) :
  Str.encodable s = true ->
  (exists digest,
     make_id (PStr s) = Returns digest
     /\ digest = Sha1.hexdigest (Sha1.bytes_of_string s)
     /\ String.length digest = 40%nat
     /\ Sha1Facts.all_chars Sha1.is_hex_digit digest = true)
  /\ make_id (PStr "") = Returns "da39a3ee5e6b4b0d3255bfef95601890afd80709"
  /\ make_id PNone = make_id (PStr "")
  /\ make_id (PStr "https://example.com/job/1")
     = Returns "ed1a29039db760644e8a47a5492ad018cd6b40c3"
  /\ (forall s', Str.encodable s' = false ->
        make_id (PStr s') = Raises UnicodeEncodeError).
Proof.
  intros Hs. split; [|split; [|split; [|split]]].
  - exists (Sha1.hexdigest (Sha1.bytes_of_string s)).
    split; [by apply make_id_encodable|]. split; [reflexivity|].
    split; [apply Sha1Facts.hexdigest_length | apply Sha1Facts.hexdigest_hex].
  - by apply make_id_falsy.
  - by rewrite !make_id_falsy.
  - rewrite make_id_encodable by reflexivity. vm_compute. reflexivity.
  - unfold Str.encodable. intros s' Hs'. rewrite make_id_str.
    by destruct (Str.has_surrogate s').
Qed.

(** *** The seen-store stub *)

(** C10.  [init_db] returns [None]; [seen_contains] is false on every handle
    and identifier; [mark_seen] returns without raising and leaves the trace
    as it was, and [seen_contains] is false after it as before it. *)
Theorem seen_store_stub (path : string) (conn : pyval) (_id : string)
    (title link : pyval) (source : string) (conn' : pyval) (id' : string) (t : trace) :
  init_db path = PNone
  /\ seen_contains conn' id' = false
  /\ mark_seen conn _id title link source t = (Returns tt, t)
  /\ (let '(_, t') := mark_seen conn _id title link source t in
      t' = t /\ seen_contains conn' id' = false).
Proof. repeat split. Qed.

(** *** The job records the fetchers build *)

Lemma keywords_match_against combined ks min_match :
  Forall (fun k => Str.Occurs (lower k) (lower combined))
    (keywords_match (Some combined) ks min_match).
Proof.
  apply List.Forall_forall. intros k Hk.
  by destruct (keywords_match_occurs _ _ _ _ Hk).
Qed.

Lemma make_id_or a b _id r :
  make_id (Py.or a b) = Returns _id -> link r = a -> title r = b -> id r = _id ->
  id_from_link_or_title r.
Proof.
  unfold id_from_link_or_title, Py.or. intros H -> -> ->.
  by destruct (Py.truthy a).
Qed.

Lemma for_each_pure_inv {A S} (I : S -> Prop) (body : S -> A -> outcome S) :
  (forall s x s', I s -> body s x = Returns s' -> I s') ->
  forall xs s s', I s -> Eff.for_each_pure xs body s = Returns s' -> I s'.
Proof.
  intros Hbody xs. induction xs as [|x xs IH]; intros s s' Hs; simpl.
  - intros [= <-]. exact Hs.
  - unfold mbind, outcome_bind. destruct (body s x) as [s1|e] eqn:Hb; [|discriminate].
    apply IH. by apply (Hbody s x).
Qed.

Lemma remoteok_item_ok keywords results item results' :
  Forall remoteok_record_ok results ->
  remoteok_item keywords results item = Returns results' ->
  Forall remoteok_record_ok results'.
Proof.
  intros Hok. unfold remoteok_item.
  destruct item as [| | | |?|d]; try (intros [= <-]; exact Hok).
  destruct (_ || _); [|intros [= <-]; exact Hok].
  set (title' := Py.or (Py.or _ _) _).
  set (link' := Py.or (Py.or (Py.get d "url") _) _).
  set (combined := fmt title' +:+ _).
  pose proof (keywords_match_against combined keywords (MIN_KEYWORD_MATCH cfg)) as Hall.
  destruct (keywords_match _ _ _) as [|k ms] eqn:Hm; [intros [= <-]; exact Hok|].
  unfold mbind, outcome_bind.
  destruct (make_id (Py.or link' title')) as [_id|e] eqn:Hid; [|discriminate].
  intros [= <-]. apply Forall_app. split; [exact Hok|].
  constructor; [|constructor]. split.
  - by eapply make_id_or.
  - exists (Py.get_default d "company" (PStr "")). split; [discriminate | exact Hall].
Qed.

Lemma rss_entry_ok feed_url keywords results entry results' :
  Forall rss_record_ok results ->
  rss_entry feed_url keywords results entry = Returns results' ->
  Forall rss_record_ok results'.
Proof.
  intros Hok. unfold rss_entry.
  set (combined := entry_get entry "title" +:+ _).
  pose proof (keywords_match_against combined keywords (MIN_KEYWORD_MATCH cfg)) as Hall.
  destruct (keywords_match _ _ _) as [|k ms] eqn:Hm; [intros [= <-]; exact Hok|].
  unfold mbind, outcome_bind.
  destruct (make_id _) as [_id|e] eqn:Hid; [|discriminate].
  intros [= <-]. apply Forall_app. split; [exact Hok|].
  constructor; [|constructor]. split.
  - by eapply make_id_or.
  - split; [discriminate | exact Hall].
Qed.

(** *** The fetchers always return *)

Lemma fetch_remoteok_try_runs keywords t :
  exists o,
    Run.exec (fetch_remoteok_try keywords) t o [HttpGet remoteok_url (USER_AGENT cfg) 15]
    /\ forall rs, o = Returns rs -> Forall remoteok_record_ok rs.
Proof.
  unfold fetch_remoteok_try, Run.exec, Eff.ask, Eff.lift, mbind, M_bind.
  destruct (requests_get W t _ _ _) as [r|e]; [|eexists; split; [reflexivity|discriminate]].
  destruct (Eff.raise_for_status r) as [[]|e];
    [|eexists; split; [reflexivity|discriminate]].
  destruct (Eff.json r) as [data|e]; [|eexists; split; [reflexivity|discriminate]].
  destruct (Py.iter data) as [items|e]; [|eexists; split; [reflexivity|discriminate]].
  eexists; split; [reflexivity|].
  intros rs Hrs.
  eapply (for_each_pure_inv (Forall remoteok_record_ok)); [|constructor|exact Hrs].
  intros s x s'. apply remoteok_item_ok.
Qed.

Lemma fetch_remoteok_runs keywords t :
  exists rs d,
    Run.exec (fetch_remoteok keywords) t (Returns rs) d
    /\ Run.calls_of d = [FetchRemoteok]
    /\ Forall remoteok_record_ok rs.
Proof.
  destruct (fetch_remoteok_try_runs keywords (t ++ [Call FetchRemoteok])) as [o [Hx Hok]].
  unfold fetch_remoteok. destruct o as [rs|e].
  - exists rs. eexists. split; [|split; [|by apply Hok]].
    + eapply Run.exec_bind; [apply Run.exec_emit|].
      eapply Run.exec_try_returns. exact Hx.
    + reflexivity.
  - exists []. eexists. split; [|split; [|constructor]].
    + eapply Run.exec_bind; [apply Run.exec_emit|].
      eapply Run.exec_try_raises; [exact Hx|].
      eapply Run.exec_bind; [apply Run.exec_emit | apply Run.exec_ret].
    + reflexivity.
Qed.

Lemma fetch_rss_feed_try_runs feed_url keywords t :
  exists o,
    Run.exec (fetch_rss_feed_try feed_url keywords) t o [FeedParse feed_url]
    /\ forall rs, o = Returns rs -> Forall rss_record_ok rs.
Proof.
  unfold fetch_rss_feed_try, Run.exec, Eff.ask, Eff.lift, mbind, M_bind.
  destruct (feedparser_parse W t _) as [feed|e];
    [|eexists; split; [reflexivity|discriminate]].
  eexists; split; [reflexivity|].
  intros rs Hrs.
  eapply (for_each_pure_inv (Forall rss_record_ok)); [|constructor|exact Hrs].
  intros s x s'. apply rss_entry_ok.
Qed.

Lemma fetch_rss_feed_runs feed_url keywords t :
  exists rs d,
    Run.exec (fetch_rss_feed feed_url keywords) t (Returns rs) d
    /\ Run.calls_of d = [FetchRssFeed feed_url]
    /\ Forall rss_record_ok rs.
Proof.
  destruct (fetch_rss_feed_try_runs feed_url keywords (t ++ [Call (FetchRssFeed feed_url)]))
    as [o [Hx Hok]].
  unfold fetch_rss_feed. destruct o as [rs|e].
  - exists rs. eexists. split; [|split; [|by apply Hok]].
    + eapply Run.exec_bind; [apply Run.exec_emit|].
      eapply Run.exec_try_returns. exact Hx.
    + reflexivity.
  - exists []. eexists. split; [|split; [|constructor]].
    + eapply Run.exec_bind; [apply Run.exec_emit|].
      eapply Run.exec_try_raises; [exact Hx|].
      eapply Run.exec_bind; [apply Run.exec_emit | apply Run.exec_ret].
    + reflexivity.
Qed.

Lemma fetch_indeed_rss_runs keywords t :
  exists rs d,
    Run.exec (fetch_indeed_rss keywords) t (Returns rs) d
    /\ Run.calls_of d = [FetchIndeedRss; FetchRssFeed indeed_url]
    /\ Forall rss_record_ok rs.
Proof.
  destruct (fetch_rss_feed_runs indeed_url keywords (t ++ [Call FetchIndeedRss]))
    as [rs [d [Hx [Hc Hok]]]].
  exists rs. eexists. split; [|split; [|exact Hok]].
  - unfold fetch_indeed_rss. eapply Run.exec_bind; [apply Run.exec_emit | exact Hx].
  - rewrite Run.calls_of_app, Hc. reflexivity.
Qed.

Lemma feeds_loop_runs feeds keywords acc t :
  Forall rss_record_ok acc ->
  exists rs d,
    Run.exec
      (Eff.for_each feeds
         (fun results f => r ← fetch_rss_feed f keywords; mret (results ++ r)) acc)
      t (Returns rs) d
    /\ Run.calls_of d = List.map FetchRssFeed feeds
    /\ Forall rss_record_ok rs.
Proof.
  revert acc t. induction feeds as [|f feeds IH]; intros acc t Hacc; simpl.
  - exists acc, []. split; [apply Run.exec_ret | by split].
  - destruct (fetch_rss_feed_runs f keywords t) as [r [d1 [Hx [Hc Hok]]]].
    destruct (IH (acc ++ r) (t ++ d1)) as [rs [d2 [Hx2 [Hc2 Hok2]]]].
    { apply Forall_app. by split. }
    exists rs, (d1 ++ d2). split; [|split; [|exact Hok2]].
    + eapply Run.exec_bind; [|exact Hx2].
      rewrite <- (app_nil_r d1) at 1.
      eapply Run.exec_bind; [exact Hx | apply Run.exec_ret].
    + rewrite Run.calls_of_app, Hc, Hc2. reflexivity.
Qed.

Lemma fetch_custom_feeds_runs feeds keywords t :
  exists rs d,
    Run.exec (fetch_custom_feeds feeds keywords) t (Returns rs) d
    /\ Run.calls_of d = FetchCustomFeeds :: List.map FetchRssFeed feeds
    /\ Forall rss_record_ok rs.
Proof.
  destruct (feeds_loop_runs feeds keywords [] (t ++ [Call FetchCustomFeeds]))
    as [rs [d [Hx [Hc Hok]]]]; [constructor|].
  exists rs. eexists. split; [|split; [|exact Hok]].
  - unfold fetch_custom_feeds. eapply Run.exec_bind; [apply Run.exec_emit | exact Hx].
  - rewrite Run.calls_of_app, Hc. reflexivity.
Qed.

(** *** The fetch phase of [run_once] *)

Lemma collect_runs conn jobs found_new t :
  collect conn jobs found_new t = (Returns (found_new ++ jobs), t).
Proof.
  unfold collect. revert found_new.
  induction jobs as [|j jobs IH]; intros found_new; simpl.
  - by rewrite app_nil_r.
  - unfold mbind, M_bind, mark_seen, mret, M_ret in *. rewrite IH.
    by rewrite <- app_assoc.
Qed.

Lemma source_step_runs (l : log_line) (fetch : M (list JobRecord)) cs found_new t :
  (forall t', exists rs d, Run.exec fetch t' (Returns rs) d /\ Run.calls_of d = cs) ->
  exists found d,
    Run.exec (Eff.emit (Print l);; jobs ← fetch; collect PNone jobs found_new)
      t (Returns found) d
    /\ Run.calls_of d = cs.
Proof.
  intros Hfetch.
  destruct (Hfetch (t ++ [Print l])) as [rs [d [Hx Hc]]].
  exists (found_new ++ rs). eexists. split.
  - eapply Run.exec_bind; [apply Run.exec_emit|].
    eapply Run.exec_bind; [exact Hx|].
    unfold Run.exec. rewrite collect_runs, app_nil_r. reflexivity.
  - rewrite !Run.calls_of_app, Hc.
    change (Run.calls_of [Print l]) with (@nil func).
    change (Run.calls_of []) with (@nil func).
    apply app_nil_r.
Qed.

Lemma run_once_fetch_runs t :
  exists found d,
    Run.exec run_once_fetch t (Returns found) d
    /\ Run.calls_of d = fetch_phase_calls.
Proof.
  unfold run_once_fetch, fetch_phase_calls.
  assert (H1 : exists found d,
    Run.exec (if source_enabled "remoteok" then
                Eff.emit (Print LogCheckingRemoteOK);;
                jobs ← fetch_remoteok (KEYWORDS cfg); collect PNone jobs []
              else mret []) t (Returns found) d
    /\ Run.calls_of d = if source_enabled "remoteok" then [FetchRemoteok] else []).
  { destruct (source_enabled "remoteok").
    - apply source_step_runs. intros t'.
      destruct (fetch_remoteok_runs (KEYWORDS cfg) t') as [rs [d [? [? _]]]]. eauto.
    - exists [], []. split; [apply Run.exec_ret | reflexivity]. }
  destruct H1 as [f1 [d1 [Hx1 Hc1]]].
  assert (H2 : exists found d,
    Run.exec (if source_enabled "indeed_rss" then
                Eff.emit (Print LogCheckingIndeed);;
                jobs ← fetch_indeed_rss (KEYWORDS cfg); collect PNone jobs f1
              else mret f1) (t ++ d1) (Returns found) d
    /\ Run.calls_of d
       = if source_enabled "indeed_rss" then [FetchIndeedRss; FetchRssFeed indeed_url]
         else []).
  { destruct (source_enabled "indeed_rss").
    - apply source_step_runs. intros t'.
      destruct (fetch_indeed_rss_runs (KEYWORDS cfg) t') as [rs [d [? [? _]]]]. eauto.
    - exists f1, []. split; [apply Run.exec_ret | reflexivity]. }
  destruct H2 as [f2 [d2 [Hx2 Hc2]]].
  assert (H3 : exists found d,
    Run.exec (match CUSTOM_FEEDS cfg with
              | _ :: _ =>
                  Eff.emit (Print LogCheckingCustomFeeds);;
                  jobs ← fetch_custom_feeds (CUSTOM_FEEDS cfg) (KEYWORDS cfg);
                  collect PNone jobs f2
              | [] => mret f2
              end) ((t ++ d1) ++ d2) (Returns found) d
    /\ Run.calls_of d
       = match CUSTOM_FEEDS cfg with
         | [] => []
         | _ :: _ => FetchCustomFeeds :: List.map FetchRssFeed (CUSTOM_FEEDS cfg)
         end).
  { destruct (CUSTOM_FEEDS cfg) as [|u us] eqn:Hf.
    - exists f2, []. split; [apply Run.exec_ret | reflexivity].
    - apply source_step_runs. intros t'.
      destruct (fetch_custom_feeds_runs (u :: us) (KEYWORDS cfg) t') as [rs [d [? [? _]]]].
      eauto. }
  destruct H3 as [f3 [d3 [Hx3 Hc3]]].
  exists f3, (d1 ++ d2 ++ d3). split.
  - eapply Run.exec_bind; [exact Hx1|].
    eapply Run.exec_bind; [exact Hx2 | exact Hx3].
  - by rewrite !Run.calls_of_app, Hc1, Hc2, Hc3.
Qed.

(** C3.  [fetch_remoteok] and [fetch_rss_feed] always return a list and
    never raise, whatever the world answers; when anything inside the [try]
    block raises (the request, the status check, the JSON decoding, the
    iteration, the field handling), the fetcher prints the error and
    returns the empty list.  So the fetch phase of [run_once] always
    returns too, having invoked every source it is set to invoke. *)
Theorem fetchers_contain_errors (feed_url : string) (keywords : list string) (t : trace) :
  (exists rs d, Run.exec (fetch_remoteok keywords) t (Returns rs) d)
  /\ (forall e d,
        Run.exec (fetch_remoteok_try keywords) (t ++ [Call FetchRemoteok]) (Raises e) d ->
        Run.exec (fetch_remoteok keywords) t (Returns [])
          ([Call FetchRemoteok] ++ d ++ [Print (LogRemoteOKError e)]))
  /\ (exists rs d, Run.exec (fetch_rss_feed feed_url keywords) t (Returns rs) d)
  /\ (forall e d,
        Run.exec (fetch_rss_feed_try feed_url keywords)
          (t ++ [Call (FetchRssFeed feed_url)]) (Raises e) d ->
        Run.exec (fetch_rss_feed feed_url keywords) t (Returns [])
          ([Call (FetchRssFeed feed_url)] ++ d ++ [Print (LogRssError feed_url e)]))
  /\ (exists found d,
        Run.exec run_once_fetch t (Returns found) d
        /\ Run.calls_of d = fetch_phase_calls).
Proof.
  split; [|split; [|split; [|split]]].
  - destruct (fetch_remoteok_runs keywords t) as [rs [d [Hx _]]]. eauto.
  - intros e d Hx. unfold fetch_remoteok.
    eapply Run.exec_bind; [apply Run.exec_emit|].
    eapply Run.exec_try_raises; [exact Hx | apply Run.exec_emit_ret].
  - destruct (fetch_rss_feed_runs feed_url keywords t) as [rs [d [Hx _]]]. eauto.
  - intros e d Hx. unfold fetch_rss_feed.
    eapply Run.exec_bind; [apply Run.exec_emit|].
    eapply Run.exec_try_raises; [exact Hx | apply Run.exec_emit_ret].
  - apply run_once_fetch_runs.
Qed.


(** *** The notifiers and the notification phase of [run_once] *)

Lemma notify_telegram_runs bot_token chat_id text t :
  exists sent d,
    Run.exec (notify_telegram bot_token chat_id text) t (Returns sent) d
    /\ Run.calls_of d = [NotifyTelegram].
Proof.
  unfold notify_telegram, Run.exec, Eff.try_except, Eff.emit, Eff.ask, Eff.lift,
    mbind, M_bind, mret, M_ret.
  destruct (negb _ || negb _); [by eexists _, [_]|].
  destruct (requests_post W _ _ _ _ _) as [r|e];
    [destruct (Eff.raise_for_status r) as [[]|e]|];
    eexists _, _; (split; [rewrite <- ?app_assoc; reflexivity | reflexivity]).
Qed.

Lemma notify_email_runs smtp_host smtp_port user password frm to subject body t :
  exists sent d,
    Run.exec (notify_email smtp_host smtp_port user password frm to subject body)
      t (Returns sent) d
    /\ Run.calls_of d = [NotifyEmail].
Proof.
  unfold notify_email, smtp, Run.exec, Eff.try_except, Eff.emit, Eff.ask, Eff.lift,
    mbind, M_bind, mret, M_ret.
  destruct (mime_text W body) as [[]|?];
    [destruct (mime_header W subject) as [[]|?]|];
    repeat match goal with
           | |- context [smtplib W ?t' ?op] => destruct (smtplib W t' op) as [[]|?]
           | |- context [as_string W ?m] => destruct (as_string W m) as [?|?]
           end;
    eexists _, _; (split; [rewrite <- ?app_assoc; reflexivity | reflexivity]).
Qed.

Lemma run_once_telegram_runs found t :
  exists sent d1,
    Run.exec (run_once_telegram found) t (Returns sent) d1
    /\ (if telegram_configured then
          exists d',
            Run.exec (notify_telegram (TELEGRAM_BOT_TOKEN cfg) (TELEGRAM_CHAT_ID cfg)
                        (telegram_text found)) t (Returns sent) d'
            /\ d1 = d' ++ (if sent then [Print LogNotifiedTelegram] else [])
        else sent = false /\ d1 = [])
    /\ Run.calls_of d1 = if telegram_configured then [NotifyTelegram] else [].
Proof.
  unfold run_once_telegram. fold telegram_configured.
  destruct telegram_configured.
  - destruct (notify_telegram_runs (TELEGRAM_BOT_TOKEN cfg) (TELEGRAM_CHAT_ID cfg)
                (telegram_text found) t) as [sent [d' [Hx Hc]]].
    exists sent, (d' ++ (if sent then [Print LogNotifiedTelegram] else [])).
    split; [|split].
    + eapply Run.exec_bind; [exact Hx|]. destruct sent.
      * apply Run.exec_emit_ret.
      * apply Run.exec_ret.
    + eauto.
    + rewrite Run.calls_of_app, Hc. by destruct sent.
  - exists false, []. split; [apply Run.exec_ret | by split].
Qed.

Lemma run_once_email_runs found (sent : bool) t :
  exists d2,
    Run.exec
      ((if negb sent && Str.truthy (SMTP_USER cfg) && Str.truthy (SMTP_PASS cfg) then
          sent_email ← notify_email (SMTP_HOST cfg) (SMTP_PORT cfg) (SMTP_USER cfg)
                         (SMTP_PASS cfg) (EMAIL_FROM cfg) (EMAIL_TO cfg)
                         (email_subject found) (email_body found);
          if sent_email : bool then Eff.emit (Print LogNotifiedEmail) else mret tt
        else mret tt);;
       if negb sent then Eff.emit (Print LogNotSent) else mret tt)
      t (Returns tt) d2
    /\ (if negb sent && smtp_configured then
          exists sent_email d',
            Run.exec (notify_email (SMTP_HOST cfg) (SMTP_PORT cfg) (SMTP_USER cfg)
                        (SMTP_PASS cfg) (EMAIL_FROM cfg) (EMAIL_TO cfg)
                        (email_subject found) (email_body found))
              t (Returns sent_email) d'
            /\ d2 = d' ++ (if sent_email then [Print LogNotifiedEmail] else [])
                       ++ [Print LogNotSent]
        else d2 = if sent then [] else [Print LogNotSent])
    /\ Run.calls_of d2 = if negb sent && smtp_configured then [NotifyEmail] else [].
Proof.
  unfold smtp_configured. rewrite <- andb_assoc.
  destruct sent; simpl negb; cbn [andb].
  - exists []. split; [|by split].
    eapply (Run.exec_bind _ _ _ _ []); apply Run.exec_ret.
  - destruct (Str.truthy (SMTP_USER cfg) && Str.truthy (SMTP_PASS cfg)).
    + destruct (notify_email_runs (SMTP_HOST cfg) (SMTP_PORT cfg) (SMTP_USER cfg)
                  (SMTP_PASS cfg) (EMAIL_FROM cfg) (EMAIL_TO cfg)
                  (email_subject found) (email_body found) t) as [ok [d' [Hx Hc]]].
      exists (d' ++ (if ok then [Print LogNotifiedEmail] else []) ++ [Print LogNotSent]).
      split; [|split].
      * rewrite app_assoc. eapply Run.exec_bind; [|apply Run.exec_emit].
        eapply Run.exec_bind; [exact Hx|]. destruct ok.
        -- apply Run.exec_emit.
        -- apply Run.exec_ret.
      * eauto.
      * rewrite Run.calls_of_app, Hc. by destruct ok.
    + exists [Print LogNotSent]. split; [|by split].
      eapply (Run.exec_bind _ _ _ _ []); [apply Run.exec_ret | apply Run.exec_emit].
Qed.

Lemma run_once_notify_runs found t :
  exists d,
    Run.exec (run_once_notify found) t (Returns tt) d
    /\ match found with
       | [] => d = [Print LogNoNewJobs]
       | _ :: _ =>
           exists sent d1 d2,
             d = [Print (LogFound (length found))] ++ d1 ++ d2
             /\ dispatch_spec found (t ++ [Print (LogFound (length found))]) sent d1 d2
       end.
Proof.
  destruct found as [|j js].
  { exists [Print LogNoNewJobs]. split; [apply Run.exec_emit | reflexivity]. }
  set (found := j :: js).
  set (t1 := t ++ [Print (LogFound (length found))]).
  destruct (run_once_telegram_runs found t1) as [sent [d1 [Hx1 [Hs1 Hc1]]]].
  destruct (run_once_email_runs found sent (t1 ++ d1)) as [d2 [Hx2 [Hs2 Hc2]]].
  exists ([Print (LogFound (length found))] ++ d1 ++ d2). split.
  - unfold run_once_notify. fold found.
    eapply Run.exec_bind; [apply Run.exec_emit|].
    eapply Run.exec_bind; [exact Hx1 | exact Hx2].
  - exists sent, d1, d2. split; [reflexivity|].
    unfold dispatch_spec. split; [exact Hs1|]. split; [exact Hs2|].
    unfold Run.invocations. rewrite Run.calls_of_app, Hc1, Hc2.
    split; [|split; [|split; [|split]]].
    + by destruct telegram_configured, (negb sent && smtp_configured).
    + by destruct telegram_configured, (negb sent && smtp_configured).
    + intros ->. by destruct telegram_configured.
    + intros ->. apply in_or_app. right.
      simpl in Hs2. destruct smtp_configured.
      * destruct Hs2 as [ok [d' [_ ->]]].
        apply in_or_app. right. apply in_or_app. right. by left.
      * subst d2. by left.
    + reflexivity.
Qed.

Lemma fetch_phase_no_notifier f :
  (f = NotifyTelegram \/ f = NotifyEmail) ->
  List.filter (Run.func_eqb f) fetch_phase_calls = [].
Proof.
  intros Hf. unfold fetch_phase_calls. rewrite !List.filter_app.
  assert (Hfeeds : forall fs, List.filter (Run.func_eqb f) (List.map FetchRssFeed fs) = []).
  { intros fs. apply Run.invocations_feeds. by destruct Hf as [-> | ->]. }
  destruct (source_enabled "remoteok"), (source_enabled "indeed_rss"),
    (CUSTOM_FEEDS cfg) as [|u us]; simpl;
    rewrite ?Hfeeds; by destruct Hf as [-> | ->].
Qed.

(** C4.  [run_once] first collects the matches, invoking no notifier.  When
    there are none it prints that no new job was found and ends.  Otherwise
    [notify_telegram] is invoked, once, iff the bot token and the chat id
    are both set; [notify_email] is invoked, once, iff the chat-bot send
    was skipped or returned failure ([sent] is false) and the SMTP user and
    password are both set, so never after a chat-bot send that succeeded;
    and when the chat-bot send did not succeed (so in particular when no
    sender succeeded) the not-sent line is printed. *)
Theorem notification_policy (t : trace) :
  exists found d0 d,
    Run.exec run_once_fetch t (Returns found) d0
    /\ Run.invocations NotifyTelegram d0 = 0%nat
    /\ Run.invocations NotifyEmail d0 = 0%nat
    /\ Run.exec run_once t (Returns tt) (d0 ++ d)
    /\ match found with
       | [] => d = [Print LogNoNewJobs]
       | _ :: _ =>
           exists sent d1 d2,
             d = [Print (LogFound (length found))] ++ d1 ++ d2
             /\ dispatch_spec found
                  ((t ++ d0) ++ [Print (LogFound (length found))]) sent d1 d2
       end.
Proof.
  destruct (run_once_fetch_runs t) as [found [d0 [Hx0 Hc0]]].
  destruct (run_once_notify_runs found (t ++ d0)) as [d [Hx Hd]].
  exists found, d0, d. unfold Run.invocations. rewrite Hc0.
  split; [exact Hx0|].
  split; [rewrite fetch_phase_no_notifier; auto|].
  split; [rewrite fetch_phase_no_notifier; auto|].
  split; [|exact Hd].
  unfold run_once. eapply Run.exec_bind; [exact Hx0 | exact Hx].
Qed.

(** The invocations of a whole run: those of the fetch phase, then those of
    the notifiers. *)
Lemma run_once_calls t :
  exists d notified,
    Run.exec run_once t (Returns tt) d
    /\ Run.calls_of d = fetch_phase_calls ++ notified
    /\ Forall (fun f => f = NotifyTelegram \/ f = NotifyEmail) notified.
Proof.
  destruct (run_once_fetch_runs t) as [found [d0 [Hx0 Hc0]]].
  destruct (run_once_notify_runs found (t ++ d0)) as [d [Hx Hd]].
  exists (d0 ++ d), (Run.calls_of d). split; [|split].
  - unfold run_once. eapply Run.exec_bind; [exact Hx0 | exact Hx].
  - by rewrite Run.calls_of_app, Hc0.
  - destruct found as [|j js]; [subst d; constructor|].
    destruct Hd as [sent [d1 [d2 [-> Hd]]]].
    destruct Hd as [_ [_ [_ [_ [_ [_ Hc]]]]]].
    rewrite Run.calls_of_app, Hc.
    destruct telegram_configured, (negb sent && smtp_configured);
      repeat (constructor; [first [by left | by right]|]); constructor.
Qed.

Lemma notifiers_not_fetchers f notified :
  Forall (fun g => g = NotifyTelegram \/ g = NotifyEmail) notified ->
  f <> NotifyTelegram -> f <> NotifyEmail ->
  List.filter (Run.func_eqb f) notified = [].
Proof.
  intros Hall Ht He. induction Hall as [|g notified Hg _ IH]; [reflexivity|].
  simpl. rewrite IH. by destruct Hg as [-> | ->], f.
Qed.

(** How many times a run invokes each source: the flag of the source
    decides for the API and for Indeed, the list of feeds for the custom
    feeds. *)
Lemma run_once_invocations t :
  exists d,
    Run.exec run_once t (Returns tt) d
    /\ Run.invocations FetchRemoteok d
       = (if source_enabled "remoteok" then 1 else 0)%nat
    /\ Run.invocations FetchIndeedRss d
       = (if source_enabled "indeed_rss" then 1 else 0)%nat
    /\ Run.invocations FetchCustomFeeds d
       = match CUSTOM_FEEDS cfg with [] => 0 | _ :: _ => 1 end%nat.
Proof.
  destruct (run_once_calls t) as [d [notified [Hx [Hc Hn]]]].
  exists d. split; [exact Hx|].
  unfold Run.invocations. rewrite Hc, !List.filter_app.
  rewrite !(notifiers_not_fetchers _ _ Hn) by discriminate.
  unfold fetch_phase_calls. rewrite !List.filter_app.
  assert (Hfeeds : forall f fs, (forall u, f <> FetchRssFeed u) ->
            List.filter (Run.func_eqb f)
              (match fs with [] => [] | _ :: _ => FetchCustomFeeds :: List.map FetchRssFeed fs end)
            = match fs with
              | [] => []
              | _ :: _ => if Run.func_eqb f FetchCustomFeeds then [FetchCustomFeeds] else []
              end).
  { intros f [|u us] Hf; [reflexivity|].
    cbn [List.filter]. rewrite (Run.invocations_feeds f (u :: us) Hf).
    by destruct (Run.func_eqb f FetchCustomFeeds). }
  rewrite !Hfeeds by discriminate.
  destruct (source_enabled "remoteok"), (source_enabled "indeed_rss"),
    (CUSTOM_FEEDS cfg); repeat split.
Qed.

(** C5.  [run_once] always returns, and never raises: whatever every fetch
    and every notifier does, the single pass runs to its end. *)
Theorem run_once_completes (t : trace) :
  exists d, Run.exec run_once t (Returns tt) d.
Proof.
  destruct (run_once_fetch_runs t) as [found [d0 [Hx0 _]]].
  destruct (run_once_notify_runs found (t ++ d0)) as [d [Hx _]].
  exists (d0 ++ d). unfold run_once.
  eapply Run.exec_bind; [exact Hx0 | exact Hx].
Qed.

(** *** The single-feed fetcher, entry by entry *)

Lemma entry_get_field entry key : entry_get entry key = field_or_empty entry key.
Proof. unfold entry_get, field_or_empty. by destruct (entry !! key). Qed.

Lemma rss_entry_step feed_url keywords results entry :
  rss_entry feed_url keywords results entry
  = if entry_kept keywords entry then
      if Str.encodable (entry_key entry)
      then Returns (results ++ [entry_record feed_url keywords entry])
      else Raises UnicodeEncodeError
    else Returns results.
Proof.
  unfold rss_entry, entry_kept, entry_record, entry_key, entry_matches, entry_combined,
    Str.encodable.
  rewrite (entry_get_field entry "title"), (entry_get_field entry "link"),
    (entry_get_field entry "summary").
  destruct (keywords_match _ _ _) as [|k ms]; [reflexivity|].
  unfold Py.or, Py.truthy. cbv zeta.
  destruct (Str.truthy (field_or_empty entry "link"));
    cbv beta iota; rewrite make_id_str; unfold mbind, outcome_bind;
    by destruct (Str.has_surrogate _).
Qed.

Lemma rss_loop feed_url keywords es results :
  Eff.for_each_pure es (rss_entry feed_url keywords) results
  = if entries_encodable keywords es
    then Returns (results
                  ++ List.map (entry_record feed_url keywords)
                       (List.filter (entry_kept keywords) es))
    else Raises UnicodeEncodeError.
Proof.
  unfold entries_encodable.
  revert results. induction es as [|e es IH]; intros results; simpl.
  - by rewrite app_nil_r.
  - rewrite rss_entry_step. unfold mbind, outcome_bind.
    destruct (entry_kept keywords e); [|apply IH].
    cbn [forallb List.map]. destruct (Str.encodable (entry_key e)); [|reflexivity].
    rewrite IH. cbn [andb]. destruct (forallb _ _); [|reflexivity].
    by rewrite <- app_assoc.
Qed.


(** *** The multi-feed aggregator *)

Lemma feeds_loop_concat feeds keywords acc t :
  Eff.for_each feeds
    (fun results f => r ← fetch_rss_feed f keywords; mret (results ++ r)) acc t
  = (rss ← fetch_each feeds keywords; mret (acc ++ List.concat rss)) t.
Proof.
  revert acc t. induction feeds as [|f feeds IH]; intros acc t; simpl.
  - unfold mbind, M_bind, mret, M_ret. by rewrite app_nil_r.
  - unfold mbind, M_bind, mret, M_ret in *.
    destruct (fetch_rss_feed f keywords t) as [[r|e] t1]; [|reflexivity].
    rewrite IH.
    destruct (fetch_each feeds keywords t1) as [[rs|e] t2]; [|reflexivity].
    simpl. by rewrite app_assoc.
Qed.

Lemma fetch_custom_feeds_concat feeds keywords t :
  fetch_custom_feeds feeds keywords t
  = (Eff.emit (Call FetchCustomFeeds);; concat_of_feeds feeds keywords) t.
Proof.
  unfold fetch_custom_feeds, concat_of_feeds.
  unfold mbind at 1 3, M_bind. simpl.
  apply feeds_loop_concat.
Qed.

Lemma fetch_each_runs feeds keywords t :
  exists rss d,
    Run.exec (fetch_each feeds keywords) t (Returns rss) d
    /\ length rss = length feeds.
Proof.
  revert t. induction feeds as [|f feeds IH]; intros t; simpl.
  - exists [], []. split; [apply Run.exec_ret | reflexivity].
  - destruct (fetch_rss_feed_runs f keywords t) as [r [d1 [Hx1 _]]].
    destruct (IH (t ++ d1)) as [rs [d2 [Hx2 Hlen]]].
    exists (r :: rs), (d1 ++ d2). split; [|simpl; by rewrite Hlen].
    eapply Run.exec_bind; [exact Hx1|].
    rewrite <- (app_nil_r d2).
    eapply Run.exec_bind; [exact Hx2 | apply Run.exec_ret].
Qed.

(** ** More of the script *)

(** *** The single-feed fetcher, case by case *)

Lemma fetch_rss_feed_shape feed_url keywords t :
  match feedparser_parse W (t ++ [Call (FetchRssFeed feed_url)]) feed_url with
  | Returns feed =>
      if entries_encodable keywords (default [] (entries feed)) then
        Run.exec (fetch_rss_feed feed_url keywords) t
          (Returns (List.map (entry_record feed_url keywords)
                      (List.filter (entry_kept keywords) (default [] (entries feed)))))
          [Call (FetchRssFeed feed_url); FeedParse feed_url]
      else
        Run.exec (fetch_rss_feed feed_url keywords) t (Returns [])
          [Call (FetchRssFeed feed_url); FeedParse feed_url;
           Print (LogRssError feed_url UnicodeEncodeError)]
  | Raises e =>
      Run.exec (fetch_rss_feed feed_url keywords) t (Returns [])
        [Call (FetchRssFeed feed_url); FeedParse feed_url;
         Print (LogRssError feed_url e)]
  end.
Proof.
  unfold fetch_rss_feed, fetch_rss_feed_try, Run.exec, Eff.try_except, Eff.emit,
    Eff.ask, Eff.lift, mbind, M_bind, mret, M_ret.
  destruct (feedparser_parse W _ feed_url) as [feed|e].
  - rewrite rss_loop.
    destruct (entries_encodable keywords _); simpl; by rewrite <- !app_assoc.
  - by rewrite <- !app_assoc.
Qed.

(** X1.  [fetch_rss_feed] prints an error and returns the empty list in two
    cases: when [feedparser.parse] raises, and when an entry that passes the
    keyword match has a link (a title, when it has no link) that UTF-8 does
    not encode, so that [make_id] raises.  Otherwise it prints nothing and
    returns the records of the entries that pass the keyword match, in the
    order of the feed; a parsed object without [entries] gives the empty
    list, also without an error. *)
Theorem fetch_rss_feed_cases (feed_url : string) (keywords : list string) (t : trace) :
  match feedparser_parse W (t ++ [Call (FetchRssFeed feed_url)]) feed_url with
  | Returns feed =>
      if entries_encodable keywords (default [] (entries feed)) then
        Run.exec (fetch_rss_feed feed_url keywords) t
          (Returns (List.map (entry_record feed_url keywords)
                      (List.filter (entry_kept keywords) (default [] (entries feed)))))
          [Call (FetchRssFeed feed_url); FeedParse feed_url]
      else
        Run.exec (fetch_rss_feed feed_url keywords) t (Returns [])
          [Call (FetchRssFeed feed_url); FeedParse feed_url;
           Print (LogRssError feed_url UnicodeEncodeError)]
  | Raises e =>
      Run.exec (fetch_rss_feed feed_url keywords) t (Returns [])
        [Call (FetchRssFeed feed_url); FeedParse feed_url;
         Print (LogRssError feed_url e)]
  end.
Proof. apply fetch_rss_feed_shape. Qed.

(** *** The API fetcher, item by item *)

(** The fields [fetch_remoteok] reads from an item, with their fallbacks. *)
Definition item_title (d : list (string * pyval)) : pyval :=
  Py.or (Py.or (Py.get d "position") (Py.get d "title")) (PStr "").

Definition item_link (d : list (string * pyval)) : pyval :=
  Py.or (Py.or (Py.get d "url") (Py.get d "apply_url")) (PStr "").

Definition item_description (d : list (string * pyval)) : pyval :=
  Py.get_default d "description" (PStr "").

Definition item_combined (d : list (string * pyval)) : string :=
  fmt (item_title d) +:+ " " +:+ fmt (Py.get_default d "company" (PStr ""))
  +:+ " " +:+ fmt (item_description d).

Definition item_matches (keywords : list string) (d : list (string * pyval))
  : list string :=
  keywords_match (Some (item_combined d)) keywords (MIN_KEYWORD_MATCH cfg).

(** The item is a dict with a position or a title, and its text passes the
    keyword match. *)
Definition item_kept (keywords : list string) (item : pyval) : bool :=
  match item with
  | PDict d =>
      (Py.has_key "position" d || Py.has_key "title" d)
      && match item_matches keywords d with [] => false | _ :: _ => true end
  | _ => false
  end.

(** What the identifier of the item is taken from, when that is a string. *)
Definition item_key (item : pyval) : option string :=
  match item with
  | PDict d =>
      match Py.or (item_link d) (item_title d) with
      | PStr s => Some s
      | _ => None
      end
  | _ => None
  end.

(** The error [make_id] meets on the item, if any: [AttributeError] when
    what the identifier is taken from is not a string, [UnicodeEncodeError]
    when it is a string that UTF-8 does not encode. *)
Definition item_error (item : pyval) : option exn :=
  match item_key item with
  | Some s => if Str.encodable s then None else Some UnicodeEncodeError
  | None => Some AttributeError
  end.

(** The records an item adds to the result. *)
Definition item_records (keywords : list string) (item : pyval) : list JobRecord :=
  match item with
  | PDict d =>
      if item_kept keywords item then
        match item_key item with
        | Some s =>
            if Str.encodable s then
              [ {| id := Sha1.hexdigest (Sha1.bytes_of_string s);
                   title := item_title d;
                   link := item_link d;
                   description := item_description d;
                   source := "remoteok";
                   matches := item_matches keywords d |} ]
            else []
        | None => []
        end
      else []
  | _ => []
  end.

(** The error of the first item that passes the keyword match and whose
    identifier cannot be made. *)
Fixpoint first_error (keywords : list string) (items : list pyval) : option exn :=
  match items with
  | [] => None
  | item :: items' =>
      if item_kept keywords item then
        match item_error item with
        | Some e => Some e
        | None => first_error keywords items'
        end
      else first_error keywords items'
  end.

(** What the request of [fetch_remoteok] gives to loop over. *)
Definition remoteok_items (answer : outcome Response) : outcome (list pyval) :=
  r ← answer;
  Eff.raise_for_status r;;
  data ← Eff.json r;
  Py.iter data.

Lemma or_str_default a :
  Py.truthy (Py.or a (PStr "")) = true \/ Py.or a (PStr "") = PStr "".
Proof.
  unfold Py.or. destruct (Py.truthy a) eqn:Ha; [left; exact Ha | right; reflexivity].
Qed.

Lemma make_id_link_or_title d :
  make_id (Py.or (item_link d) (item_title d))
  = match Py.or (item_link d) (item_title d) with
    | PStr s =>
        if Str.encodable s then Returns (Sha1.hexdigest (Sha1.bytes_of_string s))
        else Raises UnicodeEncodeError
    | _ => Raises AttributeError
    end.
Proof.
  unfold item_link, item_title.
  set (l := Py.or (Py.or (Py.get d "url") _) _).
  set (ti := Py.or (Py.or (Py.get d "position") _) _).
  assert (Hv : Py.truthy (Py.or l ti) = true \/ Py.or l ti = PStr "").
  { unfold Py.or. destruct (Py.truthy l) eqn:Hl; [left; exact Hl|].
    apply or_str_default. }
  destruct Hv as [Hv|Hv].
  - destruct (Py.or l ti) as [| | |s| |] eqn:Hor;
      try (unfold make_id, Py.or; by rewrite Hv).
    rewrite make_id_str. unfold Str.encodable. by destruct (Str.has_surrogate s).
  - rewrite Hv. reflexivity.
Qed.

Lemma remoteok_item_step keywords results item :
  remoteok_item keywords results item
  = if item_kept keywords item then
      match item_error item with
      | Some e => Raises e
      | None => Returns (results ++ item_records keywords item)
      end
    else Returns results.
Proof.
  destruct item as [| | | | |d]; try reflexivity.
  unfold remoteok_item, item_records, item_error, item_key, item_kept.
  destruct (Py.has_key "position" d || Py.has_key "title" d); [|reflexivity].
  cbv zeta. fold (item_title d) (item_link d) (item_description d).
  fold (item_combined d). fold (item_matches keywords d).
  destruct (item_matches keywords d) as [|k ms]; [reflexivity|].
  cbn [andb]. rewrite make_id_link_or_title.
  destruct (Py.or (item_link d) (item_title d)) as [| | |s| |]; try reflexivity.
  by destruct (Str.encodable s).
Qed.

Lemma item_records_none keywords item :
  item_kept keywords item = false -> item_records keywords item = [].
Proof.
  intros Hk. destruct item as [| | | | |d]; try reflexivity.
  unfold item_records. by rewrite Hk.
Qed.

Lemma remoteok_loop keywords items results :
  Eff.for_each_pure items (remoteok_item keywords) results
  = match first_error keywords items with
    | Some e => Raises e
    | None => Returns (results ++ List.flat_map (item_records keywords) items)
    end.
Proof.
  revert results. induction items as [|item items IH]; intros results; simpl.
  - by rewrite app_nil_r.
  - rewrite remoteok_item_step. unfold mbind, outcome_bind.
    destruct (item_kept keywords item) eqn:Hk.
    + destruct (item_error item) as [e|]; [reflexivity|].
      rewrite IH. destruct (first_error keywords items); [reflexivity|].
      by rewrite <- app_assoc.
    + rewrite IH, (item_records_none _ _ Hk).
      by destruct (first_error keywords items).
Qed.

Lemma first_error_none keywords items :
  Forall (fun item => item_kept keywords item = true -> item_error item = None) items ->
  first_error keywords items = None.
Proof.
  intros Hall. induction Hall as [|item items Hitem _ IH]; [reflexivity|].
  simpl. destruct (item_kept keywords item); [|exact IH].
  by rewrite (Hitem eq_refl).
Qed.

Lemma first_error_some keywords items bad e0 :
  In bad items -> item_kept keywords bad = true -> item_error bad = Some e0 ->
  exists e, first_error keywords items = Some e
            /\ (e = AttributeError \/ e = UnicodeEncodeError).
Proof.
  intros Hin Hk He. induction items as [|item items IH]; [destruct Hin|].
  simpl. destruct (item_kept keywords item) eqn:Hk'.
  - destruct (item_error item) as [e|] eqn:He'.
    + exists e. split; [reflexivity|].
      unfold item_error in He'. destruct (item_key item) as [s|].
      * destruct (Str.encodable s); [discriminate|]. injection He' as <-. by right.
      * injection He' as <-. by left.
    + destruct Hin as [->|Hin]; [congruence | by apply IH].
  - destruct Hin as [->|Hin]; [congruence | by apply IH].
Qed.

Lemma remoteok_loop_well_formed keywords items results :
  Forall (fun item => item_kept keywords item = true -> item_error item = None) items ->
  Eff.for_each_pure items (remoteok_item keywords) results
  = Returns (results ++ List.flat_map (item_records keywords) items).
Proof.
  intros Hall. by rewrite remoteok_loop, (first_error_none _ _ Hall).
Qed.

Lemma item_records_length keywords item :
  (item_kept keywords item = true -> item_error item = None) ->
  length (item_records keywords item) = if item_kept keywords item then 1%nat else 0%nat.
Proof.
  intros Hitem. destruct item as [| | | | |d]; try reflexivity.
  unfold item_records. destruct (item_kept keywords (PDict d)); [|reflexivity].
  specialize (Hitem eq_refl). unfold item_error in Hitem.
  destruct (item_key (PDict d)) as [s|]; [|discriminate].
  by destruct (Str.encodable s).
Qed.

Lemma remoteok_loop_no_dict keywords items results :
  Forall (fun item => forall d, item <> PDict d) items ->
  Eff.for_each_pure items (remoteok_item keywords) results = Returns results.
Proof.
  intros Hall. induction Hall as [|item items Hitem _ IH]; simpl; [reflexivity|].
  unfold mbind, outcome_bind.
  destruct item as [| | | | |d]; try exact IH. by destruct (Hitem d).
Qed.

Lemma fetch_remoteok_cases keywords t :
  match items ← remoteok_items
                  (requests_get W (t ++ [Call FetchRemoteok]) remoteok_url
                     (USER_AGENT cfg) 15);
        Eff.for_each_pure items (remoteok_item keywords) [] with
  | Returns rs =>
      Run.exec (fetch_remoteok keywords) t (Returns rs)
        [Call FetchRemoteok; HttpGet remoteok_url (USER_AGENT cfg) 15]
  | Raises e =>
      Run.exec (fetch_remoteok keywords) t (Returns [])
        [Call FetchRemoteok; HttpGet remoteok_url (USER_AGENT cfg) 15;
         Print (LogRemoteOKError e)]
  end.
Proof.
  unfold fetch_remoteok, fetch_remoteok_try, remoteok_items, Run.exec, Eff.try_except,
    Eff.emit, Eff.ask, Eff.lift, mbind, M_bind, outcome_bind, mret, M_ret.
  destruct (requests_get W _ _ _ _) as [r|e]; [|by rewrite <- !app_assoc].
  destruct (Eff.raise_for_status r) as [[]|e]; [|by rewrite <- !app_assoc].
  destruct (Eff.json r) as [data|e]; [|by rewrite <- !app_assoc].
  destruct (Py.iter data) as [items|e]; [|by rewrite <- !app_assoc].
  destruct (Eff.for_each_pure items _ _) as [rs|e]; by rewrite <- !app_assoc.
Qed.

(** The answer of the API is a response without an error status whose body
    is the JSON value [data]. *)
Definition api_answers (t : trace) (data : pyval) : Prop :=
  exists r,
    requests_get W (t ++ [Call FetchRemoteok]) remoteok_url (USER_AGENT cfg) 15
    = Returns r
    /\ Eff.raise_for_status r = Returns tt
    /\ json_body r = Some data.

Lemma remoteok_items_answers t data :
  api_answers t data ->
  remoteok_items
    (requests_get W (t ++ [Call FetchRemoteok]) remoteok_url (USER_AGENT cfg) 15)
  = Py.iter data.
Proof.
  intros [r [Hget [Hstatus Hjson]]].
  unfold remoteok_items, mbind, outcome_bind, Eff.json.
  by rewrite Hget, Hstatus, Hjson.
Qed.

(** X2.  When the API answers with a JSON list in which the identifier of
    every item that passes the keyword match can be made (what it is taken
    from, the link or else the title, is a string, and UTF-8 encodes it),
    [fetch_remoteok] prints no error and returns one record for each such
    item, in the order of the list; items that are not dicts, dicts with
    neither [position] nor [title], and items that fail the match add
    nothing. *)
Theorem fetch_remoteok_well_formed (keywords : list string) (t : trace)
    (items : list pyval) :
  api_answers t (PList items) ->
  Forall (fun item => item_kept keywords item = true -> item_error item = None) items ->
  Run.exec (fetch_remoteok keywords) t
    (Returns (List.flat_map (item_records keywords) items))
    [Call FetchRemoteok; HttpGet remoteok_url (USER_AGENT cfg) 15]
  /\ length (List.flat_map (item_records keywords) items)
     = length (List.filter (item_kept keywords) items).
Proof.
  intros Hans Hall. split.
  - pose proof (fetch_remoteok_cases keywords t) as H.
    rewrite (remoteok_items_answers _ _ Hans) in H.
    unfold mbind, outcome_bind in H. cbn [Py.iter] in H.
    by rewrite (remoteok_loop_well_formed _ _ _ Hall) in H.
  - clear Hans. induction Hall as [|item items Hitem _ IH]; [reflexivity|].
    cbn [List.flat_map List.filter].
    rewrite length_app, IH, (item_records_length _ _ Hitem).
    by destruct (item_kept keywords item).
Qed.

(** X3.  One item is enough to lose the whole batch: when an item of the
    list passes the keyword match and its identifier cannot be made (neither
    its link nor its title gives a string, or the string is one UTF-8 does
    not encode), [fetch_remoteok] returns the empty list, whatever the other
    items are, and prints the error of the first such item of the list: an
    [AttributeError] or a [UnicodeEncodeError]. *)
Theorem fetch_remoteok_all_or_nothing (keywords : list string) (t : trace)
    (items : list pyval) (bad : pyval) (e0 : exn) :
  api_answers t (PList items) ->
  In bad items -> item_kept keywords bad = true -> item_error bad = Some e0 ->
  exists e,
    first_error keywords items = Some e
    /\ (e = AttributeError \/ e = UnicodeEncodeError)
    /\ Run.exec (fetch_remoteok keywords) t (Returns [])
         [Call FetchRemoteok; HttpGet remoteok_url (USER_AGENT cfg) 15;
          Print (LogRemoteOKError e)].
Proof.
  intros Hans Hin Hk He.
  destruct (first_error_some _ _ _ _ Hin Hk He) as [e [Hfirst Hkind]].
  exists e. split; [exact Hfirst|]. split; [exact Hkind|].
  pose proof (fetch_remoteok_cases keywords t) as H.
  rewrite (remoteok_items_answers _ _ Hans) in H.
  unfold mbind, outcome_bind in H. cbn [Py.iter] in H.
  by rewrite remoteok_loop, Hfirst in H.
Qed.

(** X4.  When the body of the answer is JSON but not a list,
    [fetch_remoteok] returns the empty list: without a word for an object or
    a string (the loop runs over keys or characters and skips them all), and
    with a [TypeError] printed for [null], a boolean or a number. *)
Theorem fetch_remoteok_not_a_list (keywords : list string) (t : trace) (data : pyval) :
  api_answers t data ->
  (forall items, data <> PList items) ->
  Run.exec (fetch_remoteok keywords) t (Returns [])
    ([Call FetchRemoteok; HttpGet remoteok_url (USER_AGENT cfg) 15]
     ++ match data with
        | PDict _ | PStr _ => []
        | _ => [Print (LogRemoteOKError TypeError)]
        end).
Proof.
  intros Hans Hlist.
  pose proof (fetch_remoteok_cases keywords t) as H.
  rewrite (remoteok_items_answers _ _ Hans) in H.
  unfold mbind, outcome_bind in H.
  destruct data as [| | |s|items|fields]; cbn [Py.iter] in H; try exact H.
  - rewrite remoteok_loop_no_dict in H; [exact H|].
    apply List.Forall_forall. intros item Hin d ->.
    apply in_map_iff in Hin as [c [Hc _]]. discriminate.
  - by destruct (Hlist items).
  - rewrite remoteok_loop_no_dict in H; [exact H|].
    apply List.Forall_forall. intros item Hin d ->.
    apply in_map_iff in Hin as [kv [Hkv _]]. discriminate.
Qed.

(** *** The threshold and the keyword list *)

Lemma filter_none {A} (f : A -> bool) (l : list A) :
  (forall x, f x = false) -> List.filter f l = [].
Proof.
  intros Hf. induction l as [|x l IH]; simpl; [reflexivity|]. by rewrite Hf.
Qed.

Lemma keywords_match_too_few text keywords min_match :
  Z.of_nat (length keywords) < min_match ->
  keywords_match text keywords min_match = [].
Proof.
  intros Hlt. unfold keywords_match.
  set (found := List.filter _ keywords).
  pose proof (List.filter_length_le
                (fun k => Str.contains (lower k) (lower (default "" text))) keywords)
    as Hle.
  fold found in Hle. rewrite Z.geb_leb.
  destruct (Z.leb_spec min_match (Z.of_nat (length found))); [lia | reflexivity].
Qed.

Lemma keywords_match_nonempty text keywords min_match k :
  In k keywords -> Matches text k -> min_match <= 1 ->
  keywords_match text keywords min_match <> [].
Proof.
  intros Hin Hm Hle. unfold keywords_match.
  pose proof (Selected_filter text keywords) as Hsel.
  set (found := List.filter _ keywords) in *.
  assert (Hk : In k found) by (apply (Selected_In _ _ _ k Hsel); by split).
  rewrite Z.geb_leb.
  destruct found as [|k' found']; [destruct Hk|].
  destruct (Z.leb_spec min_match (Z.of_nat (length (k' :: found'))));
    [discriminate | simpl length in *; lia].
Qed.

Lemma remoteok_loop_none keywords items results :
  (forall item, item_kept keywords item = false) ->
  Eff.for_each_pure items (remoteok_item keywords) results = Returns results.
Proof.
  intros Hnone. induction items as [|item items IH]; simpl; [reflexivity|].
  rewrite remoteok_item_step, Hnone. exact IH.
Qed.

(** X5.  When the threshold is larger than the number of keywords, nothing
    ever matches: [keywords_match] is empty on every text, and both fetchers
    return the empty list whatever the sources hold. *)
Theorem threshold_above_keywords (keywords : list string) :
  Z.of_nat (length keywords) < MIN_KEYWORD_MATCH cfg ->
  (forall text, keywords_match text keywords (MIN_KEYWORD_MATCH cfg) = [])
  /\ (forall feed_url t,
        exists d, Run.exec (fetch_rss_feed feed_url keywords) t (Returns []) d)
  /\ (forall t, exists d, Run.exec (fetch_remoteok keywords) t (Returns []) d).
Proof.
  intros Hlt.
  assert (Hkm : forall text, keywords_match text keywords (MIN_KEYWORD_MATCH cfg) = [])
    by (intros text; by apply keywords_match_too_few).
  split; [exact Hkm|]. split.
  - intros feed_url t. pose proof (fetch_rss_feed_shape feed_url keywords t) as H.
    destruct (feedparser_parse W _ feed_url) as [feed|e]; [|eauto].
    unfold entries_encodable in H.
    rewrite filter_none in H; [cbn [forallb] in H; eauto|].
    intros e. unfold entry_kept, entry_matches. by rewrite Hkm.
  - intros t. pose proof (fetch_remoteok_cases keywords t) as H.
    destruct (remoteok_items _) as [items|e]; unfold mbind, outcome_bind in H; [|eauto].
    rewrite remoteok_loop_none in H; [eauto|].
    intros [| | | | |d]; try reflexivity.
    unfold item_kept, item_matches. rewrite Hkm. apply andb_false_r.
Qed.

(** X6.  An empty keyword matches every text: with [""] in the keyword list
    and a threshold of at most one, [keywords_match] is never empty, so every
    entry of every feed and every item of the API that has a position or a
    title is kept. *)
Theorem empty_keyword_matches_all (keywords : list string) :
  lower "" = "" -> In "" keywords -> MIN_KEYWORD_MATCH cfg <= 1 ->
  (forall text, keywords_match text keywords (MIN_KEYWORD_MATCH cfg) <> [])
  /\ (forall entry, entry_kept keywords entry = true)
  /\ (forall d, Py.has_key "position" d || Py.has_key "title" d = true ->
                item_kept keywords (PDict d) = true).
Proof.
  intros Hlower Hin Hle.
  assert (Hkm : forall text, keywords_match text keywords (MIN_KEYWORD_MATCH cfg) <> []).
  { intros text. apply (keywords_match_nonempty text keywords _ "" Hin); [|exact Hle].
    unfold Matches. rewrite Hlower. apply Str.contains_spec, Str.contains_empty. }
  split; [exact Hkm|]. split.
  - intros entry. unfold entry_kept, entry_matches.
    pose proof (Hkm (Some (entry_combined entry))) as H.
    by destruct (keywords_match _ _ _).
  - intros d Hd. unfold item_kept, item_matches. rewrite Hd.
    pose proof (Hkm (Some (item_combined d))) as H.
    by destruct (keywords_match _ _ _).
Qed.

Lemma map_lower_found text keywords :
  List.map lower
    (List.filter (fun k => Str.contains (lower k) (lower (default "" text))) keywords)
  = List.filter (fun x => Str.contains x (lower (default "" text)))
      (List.map lower keywords).
Proof.
  induction keywords as [|k ks IH]; simpl; [reflexivity|].
  destruct (Str.contains (lower k) _); simpl; by rewrite IH.
Qed.

(** X7.  The match looks at the lowercase forms only: two texts with the same
    lowercase form and two keyword lists with the same lowercase forms give
    matched keywords with the same lowercase forms (and as many of them),
    for every threshold. *)
Theorem keywords_match_case_insensitive (text text' : option string)
    (keywords keywords' : list string) (min_match : Z) :
  lower (default "" text) = lower (default "" text') ->
  List.map lower keywords = List.map lower keywords' ->
  List.map lower (keywords_match text keywords min_match)
  = List.map lower (keywords_match text' keywords' min_match).
Proof.
  intros Htext Hkeys.
  pose proof (map_lower_found text keywords) as H1.
  pose proof (map_lower_found text' keywords') as H2.
  rewrite Htext, Hkeys, <- H2 in H1.
  unfold keywords_match. cbv zeta. rewrite Htext.
  set (found := List.filter _ keywords) in *.
  set (found' := List.filter _ keywords') in *.
  assert (Hlen : length found = length found')
    by (rewrite <- (length_map lower found), H1; apply length_map).
  rewrite Hlen. by destruct (Z.geb _ _).
Qed.

Lemma append_assoc (a b c : string) : (a +:+ b) +:+ c = a +:+ b +:+ c.
Proof.
  induction a as [|x a IH]; [reflexivity|].
  rewrite !Str.app_cons. by rewrite IH.
Qed.

Lemma Occurs_app_l needle a b : Str.Occurs needle a -> Str.Occurs needle (a +:+ b).
Proof.
  intros [pre [post ->]]. exists pre, (post +:+ b). by rewrite !append_assoc.
Qed.

Lemma Occurs_app_r needle a b : Str.Occurs needle b -> Str.Occurs needle (a +:+ b).
Proof.
  intros [pre [post ->]]. exists (a +:+ pre), post. by rewrite !append_assoc.
Qed.

Lemma Occurs_trans a b c : Str.Occurs a b -> Str.Occurs b c -> Str.Occurs a c.
Proof.
  intros [p1 [q1 ->]] Hbc. destruct Hbc as [p2 [q2 ->]].
  exists (p2 +:+ p1), (q1 +:+ q2). by rewrite !append_assoc.
Qed.

Lemma Matches_app_l k a b :
  (forall x y, lower (x +:+ y) = lower x +:+ lower y) ->
  Matches (Some a) k -> Matches (Some (a +:+ b)) k.
Proof.
  intros Hlower Hm. unfold Matches in *. simpl in *.
  rewrite Hlower. by apply Occurs_app_l.
Qed.

Lemma Matches_app_r k a b :
  (forall x y, lower (x +:+ y) = lower x +:+ lower y) ->
  Matches (Some b) k -> Matches (Some (a +:+ b)) k.
Proof.
  intros Hlower Hm. unfold Matches in *. simpl in *.
  rewrite Hlower. by apply Occurs_app_r.
Qed.

Lemma keywords_match_witness text keywords min_match :
  keywords_match text keywords min_match <> [] ->
  exists k, In k keywords /\ Matches text k.
Proof.
  intros Hne. destruct (keywords_match text keywords min_match) as [|k ms] eqn:Hkm;
    [by destruct Hne|].
  exists k. apply (keywords_match_occurs text keywords min_match).
  rewrite Hkm. by left.
Qed.

(** X8.  For a [lower] that works piece by piece, a keyword found in the
    title alone, or in the summary alone, is enough to keep a feed entry
    when the threshold is at most one. *)
Theorem keyword_in_title_or_summary (keywords : list string)
    (entry : gmap string string) :
  (forall a b, lower (a +:+ b) = lower a +:+ lower b) ->
  MIN_KEYWORD_MATCH cfg <= 1 ->
  keywords_match (Some (field_or_empty entry "title")) keywords 1 <> []
  \/ keywords_match (Some (field_or_empty entry "summary")) keywords 1 <> [] ->
  entry_kept keywords entry = true.
Proof.
  intros Hlower Hle Hfound.
  assert (Hk : exists k, In k keywords /\ Matches (Some (entry_combined entry)) k).
  { unfold entry_combined.
    destruct Hfound as [Hf|Hf]; apply keywords_match_witness in Hf as [k [Hin Hm]];
      exists k; (split; [exact Hin|]).
    - by apply Matches_app_l.
    - by apply Matches_app_r, Matches_app_r. }
  destruct Hk as [k [Hin Hm]].
  pose proof (keywords_match_nonempty _ _ _ _ Hin Hm Hle) as Hne.
  unfold entry_kept, entry_matches.
  destruct (keywords_match (Some (entry_combined entry)) keywords (MIN_KEYWORD_MATCH cfg));
    [by destruct Hne | reflexivity].
Qed.

(** *** The notifiers, case by case *)

Lemma notify_telegram_shape bot_token chat_id text t :
  if negb (Str.truthy bot_token) || negb (Str.truthy chat_id) then
    Run.exec (notify_telegram bot_token chat_id text) t (Returns false)
      [Call NotifyTelegram]
  else
    match requests_post W (t ++ [Call NotifyTelegram]) (telegram_url bot_token)
            chat_id text 10 with
    | Returns r =>
        match Eff.raise_for_status r with
        | Returns _ =>
            Run.exec (notify_telegram bot_token chat_id text) t (Returns true)
              [Call NotifyTelegram; HttpPost (telegram_url bot_token) chat_id text 10]
        | Raises e =>
            Run.exec (notify_telegram bot_token chat_id text) t (Returns false)
              [Call NotifyTelegram; HttpPost (telegram_url bot_token) chat_id text 10;
               Print (LogTelegramFailed e)]
        end
    | Raises e =>
        Run.exec (notify_telegram bot_token chat_id text) t (Returns false)
          [Call NotifyTelegram; HttpPost (telegram_url bot_token) chat_id text 10;
           Print (LogTelegramFailed e)]
    end.
Proof.
  unfold notify_telegram, Run.exec, Eff.try_except, Eff.emit, Eff.ask, Eff.lift,
    mbind, M_bind, mret, M_ret.
  destruct (negb _ || negb _); [reflexivity|].
  destruct (requests_post W _ _ _ _ _) as [r|e];
    [destruct (Eff.raise_for_status r) as [[]|e]|]; by rewrite <- !app_assoc.
Qed.

(** X9.  [notify_telegram] makes no request when the token or the chat id is
    empty, and returns [False]; otherwise it posts once, to the URL of the
    bot, and returns [True] exactly when the request was answered and the
    answer has no error status; a failure is printed and gives [False]. *)
Theorem notify_telegram_cases (bot_token chat_id text : string) (t : trace) :
  if negb (Str.truthy bot_token) || negb (Str.truthy chat_id) then
    Run.exec (notify_telegram bot_token chat_id text) t (Returns false)
      [Call NotifyTelegram]
  else
    match requests_post W (t ++ [Call NotifyTelegram]) (telegram_url bot_token)
            chat_id text 10 with
    | Returns r =>
        match Eff.raise_for_status r with
        | Returns _ =>
            Run.exec (notify_telegram bot_token chat_id text) t (Returns true)
              [Call NotifyTelegram; HttpPost (telegram_url bot_token) chat_id text 10]
        | Raises e =>
            Run.exec (notify_telegram bot_token chat_id text) t (Returns false)
              [Call NotifyTelegram; HttpPost (telegram_url bot_token) chat_id text 10;
               Print (LogTelegramFailed e)]
        end
    | Raises e =>
        Run.exec (notify_telegram bot_token chat_id text) t (Returns false)
          [Call NotifyTelegram; HttpPost (telegram_url bot_token) chat_id text 10;
           Print (LogTelegramFailed e)]
    end.
Proof. apply notify_telegram_shape. Qed.

(** The steps of [notify_email] inside its [try]: the calls into the
    [email] package and the steps of the SMTP session. *)
Inductive mail_step : Type :=
| MimeText (body : string)
| MimeHeader (subject : string)
| AsString (msg : Message)
| Session (op : smtp_op).

(** What the world answers to a step taken after [t]. *)
Definition step_answer (t : trace) (st : mail_step) : outcome unit :=
  match st with
  | MimeText body => mime_text W body
  | MimeHeader subject => mime_header W subject
  | AsString msg => as_string W msg ≫= fun _ => Returns tt
  | Session op => smtplib W t op
  end.

(** The events a step leaves in the trace: those of the session only. *)
Definition step_events (st : mail_step) : trace :=
  match st with
  | Session op => [Smtp op]
  | _ => []
  end.

Definition steps_events (steps : list mail_step) : trace :=
  List.flat_map step_events steps.

(** What [msg.as_string()] gives; a step that uses it is reached only when
    it returned. *)
Definition email_text (frm to subject body : string) : string :=
  match as_string W (email_message frm to subject body) with
  | Returns text => text
  | Raises _ => ""
  end.

(** The steps of [notify_email], in the order of the script. *)
Definition email_steps (smtp_host : string) (smtp_port : Z)
    (user password frm to subject body : string) : list mail_step :=
  [ MimeText body; MimeHeader subject;
    Session (SmtpConnect smtp_host smtp_port 15); Session SmtpStartTls;
    Session (SmtpLogin user password);
    AsString (email_message frm to subject body);
    Session (SmtpSendmail frm to (email_text frm to subject body));
    Session SmtpQuit ].

(** The steps one after the other, up to the first that raises. *)
Definition run_step (st : mail_step) : M unit :=
  fun t => (step_answer t st, t ++ step_events st).

Fixpoint run_steps (steps : list mail_step) : M unit :=
  match steps with
  | [] => mret tt
  | st :: steps' => run_step st;; run_steps steps'
  end.

(** Taken after [t], the steps before the [n]-th return and the [n]-th
    raises; [n] is the number of steps when they all return. *)
Definition stops_at (steps : list mail_step) (t : trace) (n : nat) : Prop :=
  (forall i st, (i < n)%nat -> nth_error steps i = Some st ->
     step_answer (t ++ steps_events (firstn i steps)) st = Returns tt)
  /\ match nth_error steps n with
     | Some st =>
         exists e, step_answer (t ++ steps_events (firstn n steps)) st = Raises e
     | None => n = length steps
     end.

Lemma stops_at_unique steps t n1 n2 :
  stops_at steps t n1 -> stops_at steps t n2 -> n1 = n2.
Proof.
  assert (Hlt : forall a b, stops_at steps t a -> stops_at steps t b -> ~ (a < b)%nat).
  { intros a b [_ Ha] [Hb Hb'] Hab.
    destruct (nth_error steps a) as [st|] eqn:Hnth.
    - destruct Ha as [e He]. rewrite (Hb a st Hab Hnth) in He. discriminate.
    - subst a. destruct (nth_error steps b) as [st|] eqn:Hnb.
      + assert (b < length steps)%nat by (apply nth_error_Some; congruence). lia.
      + lia. }
  intros H1 H2. pose proof (Hlt _ _ H1 H2). pose proof (Hlt _ _ H2 H1). lia.
Qed.

Lemma run_steps_shape steps t :
  exists n : nat,
    stops_at steps t n
    /\ match nth_error steps n with
       | None => run_steps steps t = (Returns tt, t ++ steps_events steps)
       | Some st =>
           exists e,
             step_answer (t ++ steps_events (firstn n steps)) st = Raises e
             /\ run_steps steps t = (Raises e, t ++ steps_events (firstn (S n) steps))
       end.
Proof.
  unfold stops_at, steps_events.
  revert t. induction steps as [|st steps IH]; intros t.
  - exists 0%nat. split; [split; [intros i st Hi; lia | reflexivity]|].
    simpl. unfold mret, M_ret. by rewrite app_nil_r.
  - destruct (step_answer t st) as [[]|e] eqn:Hst.
    + destruct (IH (t ++ step_events st)) as [n [[Hbefore Hstop] Hat]].
      exists (S n). split; [split|].
      * intros [|i] st' Hi Hnth; simpl in *.
        -- injection Hnth as <-. by rewrite app_nil_r.
        -- specialize (Hbefore i st' ltac:(lia) Hnth).
           by rewrite <- app_assoc in Hbefore.
      * cbn [nth_error]. destruct (nth_error steps n) as [st'|].
        -- destruct Hstop as [e He]. exists e.
           cbn [firstn List.flat_map]. by rewrite <- app_assoc in He.
        -- simpl. by rewrite Hstop.
      * cbn [nth_error]. destruct (nth_error steps n) as [st'|].
        -- destruct Hat as [e [He Hrun]]. exists e.
           cbn [firstn List.flat_map]. rewrite <- app_assoc in He. split; [exact He|].
           cbn [run_steps]. unfold mbind, M_bind, run_step. rewrite Hst, Hrun.
           by rewrite <- app_assoc.
        -- cbn [run_steps List.flat_map]. unfold mbind, M_bind, run_step.
           rewrite Hst, Hat. by rewrite <- app_assoc.
    + exists 0%nat. split; [split|].
      * intros i st' Hi; lia.
      * cbn [nth_error]. exists e. cbn [firstn List.flat_map]. by rewrite app_nil_r.
      * cbn [nth_error]. exists e. cbn [firstn List.flat_map]. rewrite !app_nil_r.
        split; [exact Hst|].
        cbn [run_steps]. unfold mbind, M_bind, run_step. by rewrite Hst.
Qed.

Lemma notify_email_as_steps smtp_host smtp_port user password frm to subject body t :
  notify_email smtp_host smtp_port user password frm to subject body t
  = match run_steps (email_steps smtp_host smtp_port user password frm to subject body)
            (t ++ [Call NotifyEmail]) with
    | (Returns _, t') => (Returns true, t')
    | (Raises e, t') => (Returns false, t' ++ [Print (LogEmailFailed e)])
    end.
Proof.
  unfold notify_email, email_steps, email_text, run_steps, run_step, step_answer,
    step_events, smtp, Eff.try_except, Eff.emit, Eff.ask, Eff.lift,
    mbind, M_bind, outcome_bind, mret, M_ret.
  rewrite !app_nil_r.
  destruct (mime_text W body) as [[]|?]; [|reflexivity].
  destruct (mime_header W subject) as [[]|?]; [|reflexivity].
  destruct (as_string W (email_message frm to subject body)) as [text|?];
    repeat match goal with
           | |- context [smtplib W ?t' ?op] =>
               destruct (smtplib W t' op) as [[]|?]; try reflexivity
           end.
Qed.

Lemma notify_email_shape smtp_host smtp_port user password frm to subject body t :
  let steps := email_steps smtp_host smtp_port user password frm to subject body in
  exists (sent : bool) (n : nat) (log : trace),
    Run.exec (notify_email smtp_host smtp_port user password frm to subject body) t
      (Returns sent)
      ([Call NotifyEmail] ++ steps_events (firstn (S n) steps) ++ log)
    /\ stops_at steps (t ++ [Call NotifyEmail]) n
    /\ if sent then n = 8%nat /\ log = []
       else exists e st,
              nth_error steps n = Some st
              /\ step_answer ((t ++ [Call NotifyEmail]) ++ steps_events (firstn n steps)) st
                 = Raises e
              /\ log = [Print (LogEmailFailed e)].
Proof.
  intros steps.
  destruct (run_steps_shape steps (t ++ [Call NotifyEmail])) as [n [Hstop Hat]].
  unfold Run.exec. rewrite notify_email_as_steps. fold steps.
  destruct (nth_error steps n) as [st|] eqn:Hnth.
  - destruct Hat as [e [He Hrun]]. exists false, n, [Print (LogEmailFailed e)].
    rewrite Hrun. split; [by rewrite <- !app_assoc|]. split; [exact Hstop|].
    exists e, st. auto.
  - exists true, n, []. rewrite Hat.
    assert (Hn : n = 8%nat).
    { destruct Hstop as [_ Hstop]. by rewrite Hnth in Hstop. }
    split; [|split; [exact Hstop | by split]].
    rewrite Hn. cbn [firstn]. fold steps. by rewrite app_nil_r, <- !app_assoc.
Qed.

(** X10.  [notify_email] builds the message ([MIMEText], [Header]), then
    goes through connect, STARTTLS and login, serialises the message
    ([as_string]), and goes through sendmail and quit, in this order, and
    stops at the first of these eight steps that raises: no later step is
    taken (no [quit] after a failure, no connection when the message cannot
    be built), the error is printed and the result is [False].  It returns
    [True] exactly when all eight steps returned, so a message that
    [sendmail] accepted is still reported as a failure when [quit] raises. *)
Theorem notify_email_stops_at_first_failure (smtp_host : string) (smtp_port : Z)
    (user password frm to subject body : string) (t : trace) :
  let steps := email_steps smtp_host smtp_port user password frm to subject body in
  exists (sent : bool) (n : nat) (log : trace),
    Run.exec (notify_email smtp_host smtp_port user password frm to subject body) t
      (Returns sent)
      ([Call NotifyEmail] ++ steps_events (firstn (S n) steps) ++ log)
    /\ stops_at steps (t ++ [Call NotifyEmail]) n
    /\ if sent then n = 8%nat /\ log = []
       else exists e st,
              nth_error steps n = Some st
              /\ step_answer ((t ++ [Call NotifyEmail]) ++ steps_events (firstn n steps)) st
                 = Raises e
              /\ log = [Print (LogEmailFailed e)].
Proof. apply notify_email_shape. Qed.

(** *** The batch of a run *)

(** One source in [run_once]: when it is enabled the fetcher runs after the
    line [l] is printed and gives [rs]; when it is not, nothing happens. *)
Definition source_part (enabled : bool) (l : log_line) (fetch : M (list JobRecord))
    (t : trace) (rs : list JobRecord) (d : trace) : Prop :=
  if enabled then
    exists d', Run.exec fetch (t ++ [Print l]) (Returns rs) d' /\ d = Print l :: d'
  else rs = [] /\ d = [].

(** [if CUSTOM_FEEDS:] *)
Definition feeds_listed : bool :=
  match CUSTOM_FEEDS cfg with
  | [] => false
  | _ :: _ => true
  end.

Lemma source_part_runs (enabled : bool) l (fetch : M (list JobRecord)) found_new t :
  (forall t', exists rs d, Run.exec fetch t' (Returns rs) d) ->
  exists rs d,
    source_part enabled l fetch t rs d
    /\ Run.exec
         (if enabled then
            Eff.emit (Print l);; jobs ← fetch; collect PNone jobs found_new
          else mret found_new)
         t (Returns (found_new ++ rs)) d.
Proof.
  intros Hfetch. destruct enabled.
  - destruct (Hfetch (t ++ [Print l])) as [rs [d' Hx]].
    exists rs, (Print l :: d'). split; [exists d'; by split|].
    replace (Print l :: d') with ([Print l] ++ d' ++ []) by (by rewrite app_nil_r).
    eapply Run.exec_bind; [apply Run.exec_emit|].
    eapply Run.exec_bind; [exact Hx|].
    unfold Run.exec. by rewrite collect_runs, app_nil_r.
  - exists [], []. split; [by split|]. rewrite app_nil_r. apply Run.exec_ret.
Qed.

Lemma run_once_fetch_parts t :
  exists r1 d1 r2 d2 r3 d3,
    source_part (source_enabled "remoteok") LogCheckingRemoteOK
      (fetch_remoteok (KEYWORDS cfg)) t r1 d1
    /\ source_part (source_enabled "indeed_rss") LogCheckingIndeed
         (fetch_indeed_rss (KEYWORDS cfg)) (t ++ d1) r2 d2
    /\ source_part feeds_listed LogCheckingCustomFeeds
         (fetch_custom_feeds (CUSTOM_FEEDS cfg) (KEYWORDS cfg)) ((t ++ d1) ++ d2) r3 d3
    /\ Run.exec run_once_fetch t (Returns (r1 ++ r2 ++ r3)) (d1 ++ d2 ++ d3).
Proof.
  destruct (source_part_runs (source_enabled "remoteok") LogCheckingRemoteOK
              (fetch_remoteok (KEYWORDS cfg)) [] t) as [r1 [d1 [Hp1 Hx1]]].
  { intros t'. destruct (fetch_remoteok_runs (KEYWORDS cfg) t') as [rs [d [? _]]]. eauto. }
  destruct (source_part_runs (source_enabled "indeed_rss") LogCheckingIndeed
              (fetch_indeed_rss (KEYWORDS cfg)) r1 (t ++ d1)) as [r2 [d2 [Hp2 Hx2]]].
  { intros t'. destruct (fetch_indeed_rss_runs (KEYWORDS cfg) t') as [rs [d [? _]]]. eauto. }
  destruct (source_part_runs feeds_listed LogCheckingCustomFeeds
              (fetch_custom_feeds (CUSTOM_FEEDS cfg) (KEYWORDS cfg)) (r1 ++ r2)
              ((t ++ d1) ++ d2)) as [r3 [d3 [Hp3 Hx3]]].
  { intros t'.
    destruct (fetch_custom_feeds_runs (CUSTOM_FEEDS cfg) (KEYWORDS cfg) t')
      as [rs [d [? _]]]. eauto. }
  exists r1, d1, r2, d2, r3, d3. repeat (split; [assumption|]).
  rewrite app_assoc. unfold run_once_fetch.
  eapply Run.exec_bind; [exact Hx1|].
  eapply Run.exec_bind; [exact Hx2|].
  unfold feeds_listed in Hx3. by destruct (CUSTOM_FEEDS cfg).
Qed.

(** X11.  The batch of a run is what the API fetcher returned, then what the
    Indeed fetcher returned, then what the custom feeds gave, each as its
    fetcher returned it and only for the sources that run: nothing is
    removed, merged or reordered, so a job that two sources return is in the
    batch twice. *)
Theorem run_once_fetch_in_source_order (t : trace) :
  exists r1 d1 r2 d2 r3 d3,
    source_part (source_enabled "remoteok") LogCheckingRemoteOK
      (fetch_remoteok (KEYWORDS cfg)) t r1 d1
    /\ source_part (source_enabled "indeed_rss") LogCheckingIndeed
         (fetch_indeed_rss (KEYWORDS cfg)) (t ++ d1) r2 d2
    /\ source_part feeds_listed LogCheckingCustomFeeds
         (fetch_custom_feeds (CUSTOM_FEEDS cfg) (KEYWORDS cfg)) ((t ++ d1) ++ d2) r3 d3
    /\ Run.exec run_once_fetch t (Returns (r1 ++ r2 ++ r3)) (d1 ++ d2 ++ d3).
Proof. apply run_once_fetch_parts. Qed.

(** *** The requests of a run *)

(** The events that are requests to the outside. *)
Definition is_request (ev : event) : bool :=
  match ev with
  | Call _ | Print _ => false
  | HttpGet _ _ _ | FeedParse _ | HttpPost _ _ _ _ | Smtp _ => true
  end.

Definition requests_of (d : trace) : list event := List.filter is_request d.

(** The requests of the fetch phase, as the settings give them. *)
Definition fetch_requests : list event :=
  (if source_enabled "remoteok" then [HttpGet remoteok_url (USER_AGENT cfg) 15] else [])
  ++ (if source_enabled "indeed_rss" then [FeedParse indeed_url] else [])
  ++ List.map FeedParse (CUSTOM_FEEDS cfg).

Lemma requests_of_app d1 d2 : requests_of (d1 ++ d2) = requests_of d1 ++ requests_of d2.
Proof. apply List.filter_app. Qed.

Lemma fetch_remoteok_requests keywords t rs d :
  Run.exec (fetch_remoteok keywords) t (Returns rs) d ->
  requests_of d = [HttpGet remoteok_url (USER_AGENT cfg) 15].
Proof.
  intros Hx. pose proof (fetch_remoteok_cases keywords t) as H.
  destruct (_ ≫= _) as [rs'|e];
    destruct (Run.exec_det _ _ _ _ _ _ Hx H) as [_ ->]; reflexivity.
Qed.

Lemma fetch_rss_feed_requests feed_url keywords t rs d :
  Run.exec (fetch_rss_feed feed_url keywords) t (Returns rs) d ->
  requests_of d = [FeedParse feed_url].
Proof.
  intros Hx. pose proof (fetch_rss_feed_shape feed_url keywords t) as H.
  destruct (feedparser_parse W _ feed_url) as [feed|e];
    [destruct (entries_encodable keywords _)|];
    destruct (Run.exec_det _ _ _ _ _ _ Hx H) as [_ ->]; reflexivity.
Qed.

Lemma fetch_indeed_rss_requests keywords t rs d :
  Run.exec (fetch_indeed_rss keywords) t (Returns rs) d ->
  requests_of d = [FeedParse indeed_url].
Proof.
  intros Hx.
  destruct (fetch_rss_feed_runs indeed_url keywords (t ++ [Call FetchIndeedRss]))
    as [rs' [d' [Hx' _]]].
  assert (Hx2 : Run.exec (fetch_indeed_rss keywords) t (Returns rs')
                  ([Call FetchIndeedRss] ++ d'))
    by (unfold fetch_indeed_rss; eapply Run.exec_bind; [apply Run.exec_emit | exact Hx']).
  destruct (Run.exec_det _ _ _ _ _ _ Hx Hx2) as [_ ->].
  rewrite requests_of_app. exact (fetch_rss_feed_requests _ _ _ _ _ Hx').
Qed.

Lemma feeds_loop_requests feeds keywords acc t :
  exists rs d,
    Run.exec
      (Eff.for_each feeds
         (fun results f => r ← fetch_rss_feed f keywords; mret (results ++ r)) acc)
      t (Returns rs) d
    /\ requests_of d = List.map FeedParse feeds.
Proof.
  revert acc t. induction feeds as [|f feeds IH]; intros acc t; simpl.
  - exists acc, []. split; [apply Run.exec_ret | reflexivity].
  - destruct (fetch_rss_feed_runs f keywords t) as [r [d1 [Hx _]]].
    destruct (IH (acc ++ r) (t ++ d1)) as [rs [d2 [Hx2 Hr2]]].
    exists rs, (d1 ++ d2). split.
    + eapply Run.exec_bind; [|exact Hx2].
      rewrite <- (app_nil_r d1) at 1.
      eapply Run.exec_bind; [exact Hx | apply Run.exec_ret].
    + by rewrite requests_of_app, (fetch_rss_feed_requests _ _ _ _ _ Hx), Hr2.
Qed.

Lemma fetch_custom_feeds_requests feeds keywords t rs d :
  Run.exec (fetch_custom_feeds feeds keywords) t (Returns rs) d ->
  requests_of d = List.map FeedParse feeds.
Proof.
  intros Hx.
  destruct (feeds_loop_requests feeds keywords [] (t ++ [Call FetchCustomFeeds]))
    as [rs' [d' [Hx' Hr]]].
  assert (Hx2 : Run.exec (fetch_custom_feeds feeds keywords) t (Returns rs')
                  ([Call FetchCustomFeeds] ++ d'))
    by (unfold fetch_custom_feeds; eapply Run.exec_bind; [apply Run.exec_emit | exact Hx']).
  destruct (Run.exec_det _ _ _ _ _ _ Hx Hx2) as [_ ->].
  by rewrite requests_of_app, Hr.
Qed.

Lemma source_part_requests enabled l fetch t rs d reqs :
  (forall t' rs' d', Run.exec fetch t' (Returns rs') d' -> requests_of d' = reqs) ->
  source_part enabled l fetch t rs d ->
  requests_of d = if enabled then reqs else [].
Proof.
  intros Hreqs Hp. destruct enabled.
  - destruct Hp as [d' [Hx ->]]. exact (Hreqs _ _ _ Hx).
  - by destruct Hp as [_ ->].
Qed.

(** X12.  The fetch phase of a run makes these requests and no other, in
    this order: one GET to the API, with the configured user agent and a
    timeout of 15, when its flag is set; the fixed Indeed feed when its flag
    is set; then each listed feed once, in the order of the list, whether or
    not the feeds before it failed (no retry, no early stop). *)
Theorem run_once_fetch_requests (t : trace) :
  exists found d,
    Run.exec run_once_fetch t (Returns found) d
    /\ requests_of d = fetch_requests.
Proof.
  destruct (run_once_fetch_parts t) as [r1 [d1 [r2 [d2 [r3 [d3 [Hp1 [Hp2 [Hp3 Hx]]]]]]]]].
  exists (r1 ++ r2 ++ r3), (d1 ++ d2 ++ d3). split; [exact Hx|].
  rewrite !requests_of_app. unfold fetch_requests.
  rewrite (source_part_requests _ _ _ _ _ _ _ (fetch_remoteok_requests (KEYWORDS cfg)) Hp1).
  rewrite (source_part_requests _ _ _ _ _ _ _ (fetch_indeed_rss_requests (KEYWORDS cfg)) Hp2).
  rewrite (source_part_requests _ _ _ _ _ _ _
             (fetch_custom_feeds_requests (CUSTOM_FEEDS cfg) (KEYWORDS cfg)) Hp3).
  unfold feeds_listed. by destruct (CUSTOM_FEEDS cfg).
Qed.

(** What the chat bot answers to the message of the batch [found], asked
    after [t]: the answer to the POST, then the check of its status. *)
Definition telegram_answer (found : list JobRecord) (t : trace) : outcome unit :=
  r ← requests_post W (t ++ [Call NotifyTelegram])
        (telegram_url (TELEGRAM_BOT_TOKEN cfg)) (TELEGRAM_CHAT_ID cfg)
        (telegram_text found) 10;
  Eff.raise_for_status r.

(** The chat-bot send of a run is made and succeeds. *)
Definition telegram_delivers (found : list JobRecord) (t : trace) : bool :=
  telegram_configured
  && match telegram_answer found t with
     | Returns _ => true
     | Raises _ => false
     end.

Definition telegram_post (found : list JobRecord) : event :=
  HttpPost (telegram_url (TELEGRAM_BOT_TOKEN cfg)) (TELEGRAM_CHAT_ID cfg)
    (telegram_text found) 10.

(** The events of the chat-bot attempt of a run. *)
Definition telegram_events (found : list JobRecord) (t : trace) : trace :=
  if telegram_configured then
    [Call NotifyTelegram; telegram_post found]
    ++ match telegram_answer found t with
       | Returns _ => [Print LogNotifiedTelegram]
       | Raises e => [Print (LogTelegramFailed e)]
       end
  else [].

(** The steps of the mail of a run. *)
Definition batch_steps (found : list JobRecord) : list mail_step :=
  email_steps (SMTP_HOST cfg) (SMTP_PORT cfg) (SMTP_USER cfg) (SMTP_PASS cfg)
    (EMAIL_FROM cfg) (EMAIL_TO cfg) (email_subject found) (email_body found).

Lemma run_once_telegram_shape found t :
  Run.exec (run_once_telegram found) t (Returns (telegram_delivers found t))
    (telegram_events found t).
Proof.
  unfold run_once_telegram, telegram_delivers, telegram_events, telegram_answer,
    telegram_post, telegram_configured, notify_telegram, Run.exec, Eff.try_except,
    Eff.emit, Eff.ask, Eff.lift, mbind, M_bind, outcome_bind, mret, M_ret.
  destruct (Str.truthy (TELEGRAM_BOT_TOKEN cfg)); cbn [andb negb orb];
    [|by rewrite app_nil_r].
  destruct (Str.truthy (TELEGRAM_CHAT_ID cfg)); cbn [andb negb orb];
    [|by rewrite app_nil_r].
  destruct (requests_post W _ _ _ _ _) as [r|e];
    [destruct (Eff.raise_for_status r) as [[]|e]|]; by rewrite <- !app_assoc.
Qed.

Lemma requests_of_steps_events steps : requests_of (steps_events steps) = steps_events steps.
Proof.
  unfold steps_events. induction steps as [|st steps IH]; [reflexivity|].
  cbn [List.flat_map]. rewrite requests_of_app, IH. by destruct st.
Qed.

Lemma requests_of_telegram_events found t :
  requests_of (telegram_events found t)
  = if telegram_configured then [telegram_post found] else [].
Proof.
  unfold telegram_events. destruct telegram_configured; [|reflexivity].
  by destruct (telegram_answer found t).
Qed.

Lemma steps_events_length steps n :
  (length (steps_events (firstn n steps))
   <= length (List.filter (fun st => match st with Session _ => true | _ => false end)
                steps))%nat.
Proof.
  unfold steps_events. revert n. induction steps as [|st steps IH]; intros n.
  - by rewrite firstn_nil.
  - destruct n as [|n]; [simpl; lia|].
    cbn [firstn List.flat_map List.filter]. rewrite length_app.
    specialize (IH n). destruct st; simpl; lia.
Qed.

Lemma run_once_notify_shape j js t :
  let found := j :: js in
  let t1 := t ++ [Print (LogFound (length found))] in
  let t2 := t1 ++ telegram_events found t1 in
  exists (n : nat) (mail : trace),
    Run.exec (run_once_notify found) t (Returns tt)
      ([Print (LogFound (length found))] ++ telegram_events found t1 ++ mail
       ++ if telegram_delivers found t1 then [] else [Print LogNotSent])
    /\ if negb (telegram_delivers found t1) && smtp_configured then
         stops_at (batch_steps found) (t2 ++ [Call NotifyEmail]) n
         /\ mail = [Call NotifyEmail]
                   ++ steps_events (firstn (S n) (batch_steps found))
                   ++ match nth_error (batch_steps found) n with
                      | None => [Print LogNotifiedEmail]
                      | Some st =>
                          match step_answer
                                  ((t2 ++ [Call NotifyEmail])
                                   ++ steps_events (firstn n (batch_steps found))) st with
                          | Raises e => [Print (LogEmailFailed e)]
                          | Returns _ => []
                          end
                      end
       else mail = [].
Proof.
  intros found t1 t2.
  pose proof (run_once_telegram_shape found t1) as Htg.
  set (sent := telegram_delivers found t1) in *.
  assert (Hrun : forall mail,
            Run.exec
              ((if negb sent && Str.truthy (SMTP_USER cfg) && Str.truthy (SMTP_PASS cfg) then
                  sent_email ← notify_email (SMTP_HOST cfg) (SMTP_PORT cfg) (SMTP_USER cfg)
                                 (SMTP_PASS cfg) (EMAIL_FROM cfg) (EMAIL_TO cfg)
                                 (email_subject found) (email_body found);
                  if sent_email : bool then Eff.emit (Print LogNotifiedEmail) else mret tt
                else mret tt);;
               if negb sent then Eff.emit (Print LogNotSent) else mret tt)
              t2 (Returns tt) (mail ++ if sent then [] else [Print LogNotSent]) ->
            Run.exec (run_once_notify found) t (Returns tt)
              ([Print (LogFound (length found))] ++ telegram_events found t1 ++ mail
               ++ if sent then [] else [Print LogNotSent])).
  { intros mail Hx. unfold run_once_notify, found.
    eapply Run.exec_bind; [apply Run.exec_emit|].
    eapply Run.exec_bind; [exact Htg | exact Hx]. }
  rewrite <- andb_assoc in Hrun. fold smtp_configured in Hrun.
  destruct (negb sent && smtp_configured) eqn:Hmail.
  - destruct (notify_email_shape (SMTP_HOST cfg) (SMTP_PORT cfg) (SMTP_USER cfg)
                (SMTP_PASS cfg) (EMAIL_FROM cfg) (EMAIL_TO cfg)
                (email_subject found) (email_body found) t2)
      as [ok [n [log [Hx [Hstop Hend]]]]].
    fold (batch_steps found) in Hx, Hstop, Hend.
    apply andb_true_iff in Hmail as [Hsent _].
    destruct sent; [discriminate|]. cbn [negb] in Hrun.
    eexists n, _. split; [|split; [exact Hstop | reflexivity]].
    apply Hrun.
    assert (Hlog : (match nth_error (batch_steps found) n with
                    | None => [Print LogNotifiedEmail]
                    | Some st =>
                        match step_answer
                                ((t2 ++ [Call NotifyEmail])
                                 ++ steps_events (firstn n (batch_steps found))) st with
                        | Raises e => [Print (LogEmailFailed e)]
                        | Returns _ => []
                        end
                    end)
                   = log ++ if ok then [Print LogNotifiedEmail] else []).
    { destruct ok.
      - destruct Hend as [-> ->]. reflexivity.
      - destruct Hend as [e [st [-> [-> ->]]]]. reflexivity. }
    rewrite Hlog.
    match goal with
    | |- Run.exec _ _ _ ?d =>
        replace d
          with ((([Call NotifyEmail]
                  ++ steps_events (firstn (S n) (batch_steps found)) ++ log)
                 ++ (if ok then [Print LogNotifiedEmail] else []))
                ++ [Print LogNotSent])
          by (by rewrite <- !app_assoc)
    end.
    eapply Run.exec_bind; [|apply Run.exec_emit].
    eapply Run.exec_bind; [exact Hx|]. destruct ok.
    + apply Run.exec_emit.
    + apply Run.exec_ret.
  - exists 0%nat, []. split; [|reflexivity].
    apply Hrun. cbn [app]. destruct sent; cbn [negb].
    + eapply (Run.exec_bind _ _ _ _ []); apply Run.exec_ret.
    + eapply (Run.exec_bind _ _ _ _ []); [apply Run.exec_ret | apply Run.exec_emit].
Qed.

(** X13.  The notification phase makes no request for an empty batch.  For
    a batch that is not empty it makes one POST when the chat bot is
    configured, to the URL of the configured bot with the configured chat
    id and the text of the batch.  It then goes to the mail exactly when
    the POST was not made or did not succeed (it raised, or was answered
    with an error status) and the mail account is configured: the steps of
    one SMTP session with the configured host, port, account, sender and
    recipient, up to the first step of [notify_email] that fails, which is
    none of the five when the message cannot be built.  It contacts nothing
    else. *)
Theorem run_once_notify_requests (found : list JobRecord) (t : trace) :
  exists d n,
    Run.exec (run_once_notify found) t (Returns tt) d
    /\ match found with
       | [] => requests_of d = []
       | _ :: _ =>
           let t1 := t ++ [Print (LogFound (length found))] in
           let mails := negb (telegram_delivers found t1) && smtp_configured in
           requests_of d
           = (if telegram_configured then [telegram_post found] else [])
             ++ (if mails then steps_events (firstn (S n) (batch_steps found)) else [])
           /\ (length (steps_events (firstn (S n) (batch_steps found))) <= 5)%nat
           /\ (mails = true ->
               stops_at (batch_steps found)
                 ((t1 ++ telegram_events found t1) ++ [Call NotifyEmail]) n)
       end.
Proof.
  destruct found as [|j js].
  { exists [Print LogNoNewJobs], 0%nat. split; [apply Run.exec_emit | reflexivity]. }
  destruct (run_once_notify_shape j js t) as [n [mail [Hx Hmail]]].
  set (found := j :: js) in *. cbv zeta in Hx, Hmail.
  set (t1 := t ++ [Print (LogFound (length found))]) in *.
  eexists _, n. split; [exact Hx|]. cbv zeta. split; [|split].
  - rewrite !requests_of_app, requests_of_telegram_events.
    change (requests_of [Print (LogFound (length found))]) with (@nil event).
    cbn [app]. f_equal.
    match goal with
    | |- _ ++ ?last = _ =>
        assert (Hlast : last = []) by (by destruct (telegram_delivers found t1));
        rewrite Hlast, app_nil_r
    end.
    destruct (negb (telegram_delivers found t1) && smtp_configured).
    + destruct Hmail as [_ ->].
      rewrite !requests_of_app, requests_of_steps_events.
      change (requests_of [Call NotifyEmail]) with (@nil event). cbn [app].
      rewrite <- (app_nil_r (steps_events _)) at 2. f_equal.
      destruct (nth_error (batch_steps found) n) as [st|]; [|reflexivity].
      by destruct (step_answer _ st).
    + by subst mail.
  - exact (steps_events_length (batch_steps found) (S n)).
  - intros Hm. rewrite Hm in Hmail. by destruct Hmail.
Qed.

(** X14.  The not-sent line does not follow the mail: when the chat bot is
    not set, the mail account is, and [notify_email] succeeds, the run
    prints that it notified by mail and then that notifications were not
    sent. *)
Theorem not_sent_printed_after_email (j : JobRecord) (js : list JobRecord)
    (t d' : trace) :
  telegram_configured = false ->
  smtp_configured = true ->
  Run.exec
    (notify_email (SMTP_HOST cfg) (SMTP_PORT cfg) (SMTP_USER cfg) (SMTP_PASS cfg)
       (EMAIL_FROM cfg) (EMAIL_TO cfg) (email_subject (j :: js)) (email_body (j :: js)))
    (t ++ [Print (LogFound (length (j :: js)))]) (Returns true) d' ->
  Run.exec (run_once_notify (j :: js)) t (Returns tt)
    ([Print (LogFound (length (j :: js)))] ++ d'
     ++ [Print LogNotifiedEmail; Print LogNotSent]).
Proof.
  unfold telegram_configured, smtp_configured. intros Htg Hsm Hmail.
  apply andb_true_iff in Hsm as [Hu Hp].
  unfold run_once_notify, run_once_telegram, Run.exec in *.
  unfold mbind, M_bind, mret, M_ret, Eff.emit in *.
  rewrite Htg, Hu, Hp. cbn [negb andb]. rewrite Hmail.
  by rewrite <- !app_assoc.
Qed.

(** *** What the messages hold *)

Lemma append_nil_r s : s +:+ "" = s.
Proof. induction s as [|c s IH]; [reflexivity|]. by rewrite Str.app_cons, IH. Qed.

Lemma Occurs_refl s : Str.Occurs s s.
Proof. exists "", "". by rewrite append_nil_r. Qed.

Lemma Occurs_cons c needle s : Str.Occurs needle s -> Str.Occurs needle (String c s).
Proof. intros [pre [post ->]]. by exists (String c pre), post. Qed.

Lemma Occurs_join sep parts x : In x parts -> Str.Occurs x (Str.join sep parts).
Proof.
  induction parts as [|p ps IH]; [intros []|].
  intros [->|Hin].
  - destruct ps as [|q ps]; [apply Occurs_refl|].
    change (Str.join sep (x :: q :: ps)) with (x +:+ sep +:+ Str.join sep (q :: ps)).
    apply Occurs_app_l, Occurs_refl.
  - destruct ps as [|q ps]; [destruct Hin|].
    change (Str.join sep (p :: q :: ps)) with (p +:+ sep +:+ Str.join sep (q :: ps)).
    by apply Occurs_app_r, Occurs_app_r, IH.
Qed.

(** X15.  Every job of the batch is in both messages: its title and its
    link, as they are (nothing is escaped or cut), and its matched keywords
    joined by commas, occur in the HTML body of the mail and in the text
    for the chat bot. *)
Theorem every_job_in_messages (found : list JobRecord) (j : JobRecord) :
  In j found ->
  (Str.Occurs (fmt (title j)) (email_body found)
   /\ Str.Occurs (fmt (link j)) (email_body found)
   /\ Str.Occurs (Str.join ", " (matches j)) (email_body found))
  /\ (Str.Occurs (fmt (title j)) (telegram_text found)
      /\ Str.Occurs (fmt (link j)) (telegram_text found)
      /\ Str.Occurs (Str.join ", " (matches j)) (telegram_text found)).
Proof.
  intros Hin.
  assert (Hhtml : Str.Occurs (html_line j) (email_body found))
    by (apply Occurs_join, in_map, Hin).
  assert (Htext : Str.Occurs (text_line j) (telegram_text found))
    by (apply Occurs_join, in_map, Hin).
  split; (split; [|split]).
  - refine (Occurs_trans _ _ _ _ Hhtml). unfold html_line.
    apply Occurs_app_r, Occurs_app_l, Occurs_refl.
  - refine (Occurs_trans _ _ _ _ Hhtml). unfold html_line.
    do 5 apply Occurs_app_r. apply Occurs_cons, Occurs_refl.
  - refine (Occurs_trans _ _ _ _ Hhtml). unfold html_line.
    do 4 apply Occurs_app_r. apply Occurs_app_l, Occurs_refl.
  - refine (Occurs_trans _ _ _ _ Htext). unfold text_line.
    apply Occurs_app_l, Occurs_refl.
  - refine (Occurs_trans _ _ _ _ Htext). unfold text_line.
    do 2 apply Occurs_app_r. apply Occurs_app_l, Occurs_refl.
  - refine (Occurs_trans _ _ _ _ Htext). unfold text_line.
    do 4 apply Occurs_app_r. apply Occurs_refl.
Qed.

(** *** The self-tests and the entry point *)

(** How [_run_basic_tests] ends: all assertions hold, the line "Basic tests
    passed." is printed and the function returns; or the assertion number
    [which] fails; or a call under test raises. *)
Inductive tests_outcome : Type :=
| TestsPassed
| AssertionFailed (which : nat)
| TestsRaised (e : exn).

Definition is_empty {A} (l : list A) : bool :=
  match l with
  | [] => true
  | _ :: _ => false
  end.

Definition _run_basic_tests : trace -> tests_outcome * trace := fun t =>
  if is_empty (keywords_match (Some "Senior Python Django developer")
                 ["python"; "django"] (MIN_KEYWORD_MATCH cfg))
  then (AssertionFailed 1, t)
  else if negb (is_empty (keywords_match (Some "No match here") ["python"]
                            (MIN_KEYWORD_MATCH cfg)))
  then (AssertionFailed 2, t)
  else
    match make_id (PStr "https://example.com/job/1"),
          make_id (PStr "https://example.com/job/1") with
    | Returns a, Returns b =>
        if negb (String.eqb a b) then (AssertionFailed 3, t)
        else if seen_contains PNone "someid" then (AssertionFailed 4, t)
        else
          match mark_seen PNone "someid" (PStr "title") (PStr "link") "src" t with
          | (Returns _, t') => (TestsPassed, t')
          | (Raises _, t') => (AssertionFailed 5, t')
          end
    | Raises e, _ | _, Raises e => (TestsRaised e, t)
    end.

(** How the process ends: [run_once] ran and ended with [o], or the
    self-tests stopped it before. *)
Inductive main_outcome : Type :=
| Completed (o : outcome unit)
| Aborted (r : tests_outcome).

Record main_result : Type := {
  tests_line : bool;
  ended : main_outcome;
  events : trace;
}.

(** The [__main__] block; [env] is [os.environ.get('RUN_JOB_AGENT_TESTS')]. *)
Definition main (env : option string) (t : trace) : main_result :=
  if bool_decide (env = Some "1") then
    match _run_basic_tests t with
    | (TestsPassed, t') =>
        let '(o, t'') := run_once t' in
        {| tests_line := true; ended := Completed o; events := t'' |}
    | (r, t') => {| tests_line := false; ended := Aborted r; events := t' |}
    end
  else
    let '(o, t') := run_once t in
    {| tests_line := false; ended := Completed o; events := t' |}.

End JobAgent.

(** *** Scenarios *)

Example match_python_django :
  keywords_match Str.ascii_lower (Some "Senior Python Django developer")
    ["python"; "django"] 1
  = ["python"; "django"].
Proof. reflexivity. Qed.

Example match_nothing :
  keywords_match Str.ascii_lower (Some "No match here") ["python"] 1 = [].
Proof. reflexivity. Qed.

Example match_below_threshold :
  keywords_match Str.ascii_lower (Some "Senior Python developer") ["python"; "django"] 2
  = [].
Proof. reflexivity. Qed.

Example match_none_text :
  keywords_match Str.ascii_lower None ["python"; ""] 1 = [""].
Proof. reflexivity. Qed.

(** A network error, an HTTP error status, a body that is not JSON, JSON that
    cannot be iterated, and a link that is not a string all end in the empty
    list. *)
Example remoteok_network_error :
  fetch_remoteok Str.ascii_lower Demo.str_of Demo.offline shipped_config ["python"] []
  = (Returns [],
     [Call FetchRemoteok;
      HttpGet remoteok_url "JobWatcherBot/1.0 (+https://example.com)" 15;
      Print (LogRemoteOKError ConnectionError)]).
Proof. reflexivity. Qed.

Example remoteok_http_error :
  fst (fetch_remoteok Str.ascii_lower Demo.str_of
         (Demo.online {| status_code := 503; json_body := None |} [])
         shipped_config ["python"] [])
  = Returns [].
Proof. reflexivity. Qed.

Example remoteok_not_json :
  fst (fetch_remoteok Str.ascii_lower Demo.str_of (Demo.online Demo.ok_response [])
         shipped_config ["python"] [])
  = Returns [].
Proof. reflexivity. Qed.

Example remoteok_not_iterable :
  snd (fetch_remoteok Str.ascii_lower Demo.str_of (Demo.online (Demo.api_of (PInt 3)) [])
         shipped_config ["python"] [])
  = [Call FetchRemoteok;
     HttpGet remoteok_url "JobWatcherBot/1.0 (+https://example.com)" 15;
     Print (LogRemoteOKError TypeError)].
Proof. reflexivity. Qed.

Example remoteok_link_not_a_string :
  fst (fetch_remoteok Str.ascii_lower Demo.str_of
         (Demo.online
            (Demo.api_of
               (PList [ PDict [("legal", PStr "notice")];
                        PDict [("position", PStr "Python developer");
                               ("url", PStr "https://remoteok.com/1")];
                        PDict [("position", PStr "Django developer");
                               ("url", PInt 7)] ])) [])
         shipped_config ["python"; "django"] [])
  = Returns [].
Proof. vm_compute. reflexivity. Qed.

Example remoteok_two_jobs :
  List.map (fun r => (id r, title r, matches r))
    match fst (fetch_remoteok Str.ascii_lower Demo.str_of
                 (Demo.online
                    (Demo.api_of
                       (PList [ PDict [("legal", PStr "notice")];
                                PStr "stray";
                                PDict [("position", PStr "Python developer");
                                       ("url", PStr "https://jobs.example/1")];
                                PDict [("title", PStr "Cook");
                                       ("company", PStr "Django Diner")] ])) [])
                 shipped_config ["python"; "django"] []) with
    | Returns rs => rs
    | Raises _ => []
    end
  = [ ("3e2ef223f4eb9e02b8c69ba1dacc91ab504e20c2", PStr "Python developer", ["python"]);
      ("de24a2eb3bf31d4a02a71e03f7e70817d6c6e7db", PStr "Cook", ["django"]) ].
Proof. vm_compute. reflexivity. Qed.

(** Every source and every notifier fails: the run still ends. *)
Example run_once_all_down :
  run_once Str.ascii_lower Demo.str_of Demo.offline
    (Demo.with_credentials "token" "42" "me@example.com" "secret" shipped_config) []
  = (Returns tt,
     [ Print LogCheckingRemoteOK; Call FetchRemoteok;
       HttpGet remoteok_url "JobWatcherBot/1.0 (+https://example.com)" 15;
       Print (LogRemoteOKError ConnectionError);
       Print LogCheckingCustomFeeds; Call FetchCustomFeeds ]
     ++ List.concat
          (List.map
             (fun u => [Call (FetchRssFeed u); FeedParse u; Print (LogRssError u OSError)])
             (CUSTOM_FEEDS shipped_config))
     ++ [Print LogNoNewJobs]).
Proof. vm_compute. reflexivity. Qed.

(** The chat bot is set and reachable: the mail is not attempted. *)
Example run_once_telegram_first :
  Run.calls_of
    (snd (run_once Str.ascii_lower Demo.str_of
            (Demo.online Demo.ok_response [Demo.python_entry])
            (Demo.with_credentials "token" "42" "me@example.com" "secret" Demo.one_feed)
            []))
  = [FetchCustomFeeds; FetchRssFeed "https://feeds.example/jobs.rss"; NotifyTelegram].
Proof. vm_compute. reflexivity. Qed.

(** The chat bot is not set, the mail account is: the mail is sent, and the
    not-sent line is printed all the same. *)
Example run_once_email_only :
  snd (run_once Str.ascii_lower Demo.str_of
         (Demo.online Demo.ok_response [Demo.python_entry])
         (Demo.with_credentials "" "" "me@example.com" "secret" Demo.one_feed) [])
  = [ Print LogCheckingCustomFeeds;
      Call FetchCustomFeeds; Call (FetchRssFeed "https://feeds.example/jobs.rss");
      FeedParse "https://feeds.example/jobs.rss";
      Print (LogFound 1);
      Call NotifyEmail;
      Smtp (SmtpConnect "smtp.gmail.com" 587 15);
      Smtp SmtpStartTls;
      Smtp (SmtpLogin "me@example.com" "secret");
      Smtp (SmtpSendmail "me@example.com" "me@example.com"
              ("Subject: 1 New Job(s) Matching Your Keywords"
               +:+ String "010" "From: me@example.com"
               +:+ String "010" "To: me@example.com"
               +:+ String "010" (String "010" "<b>Senior Python Developer</b>")
               +:+ String "010" "Matches: python, django, fastapi"
               +:+ String "010" "https://jobs.example/1"));
      Smtp SmtpQuit;
      Print LogNotifiedEmail;
      Print LogNotSent ].
Proof. vm_compute. reflexivity. Qed.

(** A link that UTF-8 does not encode: the job before it is lost too. *)
Example remoteok_lone_surrogate_link :
  fetch_remoteok Str.ascii_lower Demo.str_of
    (Demo.online
       (Demo.api_of
          (PList [ PDict [("position", PStr "Python developer");
                          ("url", PStr "https://remoteok.com/1")];
                   PDict [("position", PStr "Django developer");
                          ("url", PStr Demo.lone_surrogate)] ])) [])
    shipped_config ["python"; "django"] []
  = (Returns [],
     [Call FetchRemoteok;
      HttpGet remoteok_url "JobWatcherBot/1.0 (+https://example.com)" 15;
      Print (LogRemoteOKError UnicodeEncodeError)]).
Proof. vm_compute. reflexivity. Qed.

(** The same in a feed; an entry that fails the match does no harm, whatever
    its link. *)
Example rss_lone_surrogate_link :
  fetch_rss_feed Str.ascii_lower
    (Demo.online Demo.ok_response
       [Demo.python_entry;
        {[ "title" := "Python engineer"; "link" := Demo.lone_surrogate ]}])
    shipped_config "https://feeds.example/jobs.rss" ["python"] []
  = (Returns [],
     [Call (FetchRssFeed "https://feeds.example/jobs.rss");
      FeedParse "https://feeds.example/jobs.rss";
      Print (LogRssError "https://feeds.example/jobs.rss" UnicodeEncodeError)]).
Proof. vm_compute. reflexivity. Qed.

Example rss_lone_surrogate_unmatched :
  List.map id
    match fst (fetch_rss_feed Str.ascii_lower
                 (Demo.online Demo.ok_response
                    [{[ "title" := "Cook wanted"; "link" := Demo.lone_surrogate ]};
                     Demo.python_entry])
                 shipped_config "https://feeds.example/jobs.rss" ["python"] []) with
    | Returns rs => rs
    | Raises _ => []
    end
  = ["3e2ef223f4eb9e02b8c69ba1dacc91ab504e20c2"].
Proof. vm_compute. reflexivity. Qed.

(** A body the message cannot be built from: no connection is made. *)
Example notify_email_unencodable_body :
  notify_email (Demo.online Demo.ok_response []) "smtp.gmail.com" 587
    "me@example.com" "secret" "me@example.com" "you@example.com" "1 New Job(s)"
    ("<b>" +:+ Demo.lone_surrogate +:+ "</b>") []
  = (Returns false, [Call NotifyEmail; Print (LogEmailFailed UnicodeEncodeError)]).
Proof. vm_compute. reflexivity. Qed.

(** A sender the message cannot be serialised with: connect, STARTTLS and
    login succeed, nothing is sent and the session is not closed. *)
Example notify_email_unserialisable_sender :
  notify_email (Demo.online Demo.ok_response []) "smtp.gmail.com" 587
    "me@example.com" "secret" ("me" +:+ Demo.lone_surrogate +:+ "@example.com")
    "you@example.com" "1 New Job(s)" "<b>Python developer</b>" []
  = (Returns false,
     [Call NotifyEmail;
      Smtp (SmtpConnect "smtp.gmail.com" 587 15);
      Smtp SmtpStartTls;
      Smtp (SmtpLogin "me@example.com" "secret");
      Print (LogEmailFailed UnicodeEncodeError)]).
Proof. vm_compute. reflexivity. Qed.

(** *** The flag of the custom feeds *)

(** C2.  [run_once] does not read the flag of the custom feeds.  With the
    flag off and a feed listed, [fetch_custom_feeds] is invoked once; with
    the flag on and no feed listed, it is not invoked.  (The flags of the API
    and of Indeed are read: see [run_once_invocations].) *)
Theorem custom_feeds_flag_ignored (lower : string -> string) (str_of : pyval -> string)
    (W : World) (t : trace) :
  (SOURCES Demo.flag_off !! "custom_feeds" = Some false
   /\ exists d,
        Run.exec (run_once lower str_of W Demo.flag_off) t (Returns tt) d
        /\ Run.invocations FetchCustomFeeds d = 1%nat)
  /\ (SOURCES Demo.no_feeds !! "custom_feeds" = Some true
      /\ exists d,
           Run.exec (run_once lower str_of W Demo.no_feeds) t (Returns tt) d
           /\ Run.invocations FetchCustomFeeds d = 0%nat).
Proof.
  split; (split; [reflexivity|]).
  - destruct (run_once_invocations lower str_of W Demo.flag_off t) as [d [Hx [_ [_ Hc]]]].
    eauto.
  - destruct (run_once_invocations lower str_of W Demo.no_feeds t) as [d [Hx [_ [_ Hc]]]].
    eauto.
Qed.

(** *** The aggregator concatenates *)

(** C8.  [fetch_custom_feeds] is the concatenation, in the order of the
    feeds, of what [fetch_rss_feed] returns on each of them; nothing is
    removed: a job that two feeds hold gives two records, with the same
    identifier. *)
Theorem custom_feeds_concat :
  (forall (lower : string -> string) (W : World) (cfg : Config)
          (feeds keywords : list string) (t : trace),
     fetch_custom_feeds lower W cfg feeds keywords t
     = (Eff.emit (Call FetchCustomFeeds);; concat_of_feeds lower W cfg feeds keywords) t
     /\ exists rss d,
          Run.exec (fetch_each lower W cfg feeds keywords)
            (t ++ [Call FetchCustomFeeds]) (Returns rss) d
          /\ length rss = length feeds
          /\ Run.exec (fetch_custom_feeds lower W cfg feeds keywords) t
               (Returns (List.concat rss)) ([Call FetchCustomFeeds] ++ d))
  /\ (exists r1 r2 d,
        Run.exec
          (fetch_custom_feeds Str.ascii_lower
             (Demo.online Demo.ok_response [Demo.python_entry]) shipped_config
             ["https://a.example/rss"; "https://b.example/rss"] ["python"])
          [] (Returns [r1; r2]) d
        /\ id r1 = id r2 /\ title r1 = title r2 /\ link r1 = link r2
        /\ source r1 = "https://a.example/rss" /\ source r2 = "https://b.example/rss").
Proof.
  split.
  - intros lower W cfg feeds keywords t.
    pose proof (fetch_custom_feeds_concat lower W cfg feeds keywords t) as Heq.
    split; [exact Heq|].
    destruct (fetch_each_runs lower Demo.str_of W cfg feeds keywords
                (t ++ [Call FetchCustomFeeds])) as [rss [d [Hx Hlen]]].
    exists rss, d. split; [exact Hx|]. split; [exact Hlen|].
    unfold Run.exec. rewrite Heq.
    eapply Run.exec_bind; [apply Run.exec_emit|].
    unfold concat_of_feeds. rewrite <- (app_nil_r d).
    eapply Run.exec_bind; [exact Hx | apply Run.exec_ret].
  - eexists _, _, _. split; [vm_compute; reflexivity|].
    repeat split.
Qed.

(** *** A feed with bare entries *)


(** ** The self-tests and the entry point, on ASCII text *)

(** On ASCII text [str.lower] is [Str.ascii_lower]; the strings of the
    self-tests are ASCII. *)
Lemma run_basic_tests_result (cfg : Config) (t : trace) :
  _run_basic_tests Str.ascii_lower cfg t
  = (if Z.leb (MIN_KEYWORD_MATCH cfg) 2 then TestsPassed else AssertionFailed 1, t).
Proof.
  unfold _run_basic_tests, keywords_match. cbv zeta.
  change (List.filter _ ["python"; "django"]) with ["python"; "django"].
  change (List.filter _ ["python"]) with (@nil string).
  change (Z.of_nat (length ["python"; "django"])) with 2.
  change (Z.of_nat (length (@nil string))) with 0.
  rewrite !(make_id_encodable "https://example.com/job/1") by reflexivity.
  rewrite String.eqb_refl, Z.geb_leb.
  destruct (Z.leb (MIN_KEYWORD_MATCH cfg) 2); cbn [is_empty]; [|reflexivity].
  by destruct (Z.geb 0 (MIN_KEYWORD_MATCH cfg)).
Qed.

(** X16.  The self-tests depend on the configured threshold: they pass
    when [MIN_KEYWORD_MATCH] is at most 2 and fail at their first assertion
    otherwise (the test text holds two of the two keywords it is matched
    against); they add no event to the trace (the line they print when
    they pass is the outcome [TestsPassed]). *)
Theorem self_tests_depend_on_threshold (cfg : Config) (t : trace) :
  _run_basic_tests Str.ascii_lower cfg t
  = (if Z.leb (MIN_KEYWORD_MATCH cfg) 2 then TestsPassed else AssertionFailed 1, t).
Proof. apply run_basic_tests_result. Qed.

(** X17.  The process ends without [run_once] in one case only: the
    self-tests are switched on ([RUN_JOB_AGENT_TESTS] is ["1"]) and the
    threshold is above 2; then the first assertion fails and no source or
    notifier is contacted.  In every other case, whatever the world does,
    [run_once] runs from where the process started and returns. *)
Theorem main_ends (str_of : pyval -> string) (W : World) (cfg : Config)
    (env : option string) (t : trace) :
  let r := main Str.ascii_lower str_of W cfg env t in
  if bool_decide (env = Some "1") && negb (Z.leb (MIN_KEYWORD_MATCH cfg) 2) then
    ended r = Aborted (AssertionFailed 1) /\ events r = t /\ tests_line r = false
  else
    exists d,
      Run.exec (run_once Str.ascii_lower str_of W cfg) t (Returns tt) d
      /\ ended r = Completed (Returns tt)
      /\ events r = t ++ d
      /\ tests_line r = bool_decide (env = Some "1").
Proof.
  destruct (run_once_calls Str.ascii_lower str_of W cfg t) as [d [_ [Hx _]]].
  unfold main. rewrite run_basic_tests_result.
  destruct (bool_decide (env = Some "1")), (Z.leb (MIN_KEYWORD_MATCH cfg) 2);
    cbn [andb negb]; try (by repeat split);
    exists d; rewrite Hx; by repeat split.
Qed.

(** ** Instances of the properties that have a precondition *)

Module Cases.

Definition two_keywords : list string := ["python"; "django"].

(** A list as the API returns it: a notice, a stray value, two jobs. *)
Definition api_items : list pyval :=
  [ PDict [("legal", PStr "notice")];
    PStr "stray";
    PDict [("position", PStr "Python developer"); ("url", PStr "https://jobs.example/1")];
    PDict [("title", PStr "Cook"); ("company", PStr "Django Diner")] ].

Definition api_world : World := Demo.online (Demo.api_of (PList api_items)) [].

(** The link of the second job is one UTF-8 does not encode, the link of the
    third is a number. *)
Definition surrogate_item : pyval :=
  PDict [("position", PStr "Python engineer"); ("url", PStr Demo.lone_surrogate)].

Definition bad_item : pyval :=
  PDict [("position", PStr "Django developer"); ("url", PInt 7)].

Definition poisoned_items : list pyval :=
  [ PDict [("position", PStr "Python developer"); ("url", PStr "https://jobs.example/1")];
    surrogate_item;
    bad_item ].

Definition poisoned_world : World := Demo.online (Demo.api_of (PList poisoned_items)) [].

(** An error object in place of the list. *)
Definition error_body : pyval := PDict [("error", PStr "rate limited")].

Definition error_world : World := Demo.online (Demo.api_of error_body) [].

Definition with_threshold (m : Z) (c : Config) : Config :=
  {| DB_PATH := DB_PATH c; KEYWORDS := KEYWORDS c; SOURCES := SOURCES c;
     CUSTOM_FEEDS := CUSTOM_FEEDS c; TELEGRAM_BOT_TOKEN := TELEGRAM_BOT_TOKEN c;
     TELEGRAM_CHAT_ID := TELEGRAM_CHAT_ID c; SMTP_HOST := SMTP_HOST c;
     SMTP_PORT := SMTP_PORT c; SMTP_USER := SMTP_USER c; SMTP_PASS := SMTP_PASS c;
     EMAIL_TO := EMAIL_TO c; EMAIL_FROM := EMAIL_FROM c;
     MIN_KEYWORD_MATCH := m; USER_AGENT := USER_AGENT c |}.

Definition job : JobRecord :=
  {| id := "3e2ef223f4eb9e02b8c69ba1dacc91ab504e20c2";
     title := PStr "Senior Python Developer";
     link := PStr "https://jobs.example/1";
     description := PStr "Django and FastAPI";
     source := "https://feeds.example/jobs.rss";
     matches := ["python"; "django"; "fastapi"] |}.

(** The mail account is set, the chat bot is not. *)
Definition mail_config : Config :=
  Demo.with_credentials "" "" "me@example.com" "secret" Demo.one_feed.

Definition mail_world : World := Demo.online Demo.ok_response [Demo.python_entry].

Definition mail_events : trace :=
  Call NotifyEmail
  :: steps_events
       (email_steps mail_world "smtp.gmail.com" 587 "me@example.com" "secret"
          "me@example.com" "me@example.com" (email_subject Demo.str_of [job])
          (email_body Demo.str_of [job])).

End Cases.

Lemma ascii_lower_app (a b : string) :
  Str.ascii_lower (a +:+ b) = Str.ascii_lower a +:+ Str.ascii_lower b.
Proof.
  induction a as [|c a IH]; [reflexivity|].
  rewrite Str.app_cons. cbn [Str.ascii_lower]. by rewrite IH, Str.app_cons.
Qed.

Lemma make_id_digest_witness :
  (exists digest,
     make_id (PStr "https://jobs.example/1") = Returns digest
     /\ digest = Sha1.hexdigest (Sha1.bytes_of_string "https://jobs.example/1")
     /\ String.length digest = 40%nat
     /\ Sha1Facts.all_chars Sha1.is_hex_digit digest = true)
  /\ make_id (PStr "") = Returns "da39a3ee5e6b4b0d3255bfef95601890afd80709"
  /\ make_id PNone = make_id (PStr "")
  /\ make_id (PStr "https://example.com/job/1")
     = Returns "ed1a29039db760644e8a47a5492ad018cd6b40c3"
  /\ (forall s', Str.encodable s' = false ->
        make_id (PStr s') = Raises UnicodeEncodeError).
Proof.
  apply (make_id_digest "https://jobs.example/1"). reflexivity.
Defined.

(** [make_id] on the string ["\ud800"]: no digest. *)
Lemma make_id_lone_surrogate :
  make_id (PStr Demo.lone_surrogate) = Raises UnicodeEncodeError.
Proof. reflexivity. Qed.

Lemma fetch_remoteok_well_formed_witness :
  Run.exec
    (fetch_remoteok Str.ascii_lower Demo.str_of Cases.api_world shipped_config
       Cases.two_keywords)
    []
    (Returns
       (List.flat_map
          (item_records Str.ascii_lower Demo.str_of shipped_config Cases.two_keywords)
          Cases.api_items))
    [Call FetchRemoteok; HttpGet remoteok_url (USER_AGENT shipped_config) 15]
  /\ length
       (List.flat_map
          (item_records Str.ascii_lower Demo.str_of shipped_config Cases.two_keywords)
          Cases.api_items)
     = length
         (List.filter
            (item_kept Str.ascii_lower Demo.str_of shipped_config Cases.two_keywords)
            Cases.api_items).
Proof.
  apply fetch_remoteok_well_formed.
  - exists (Demo.api_of (PList Cases.api_items)). repeat split.
  - repeat (constructor;
            [first [ intros _; vm_compute; reflexivity
                   | intros H; vm_compute in H; discriminate H ]|]);
      constructor.
Defined.

(** The item with the number comes after the one with the surrogate: the
    error printed is that of the surrogate. *)
Lemma fetch_remoteok_all_or_nothing_witness :
  item_error Cases.bad_item = Some AttributeError
  /\ Run.exec
       (fetch_remoteok Str.ascii_lower Demo.str_of Cases.poisoned_world shipped_config
          Cases.two_keywords)
       [] (Returns [])
       [Call FetchRemoteok; HttpGet remoteok_url (USER_AGENT shipped_config) 15;
        Print (LogRemoteOKError UnicodeEncodeError)].
Proof.
  split; [reflexivity|].
  destruct (fetch_remoteok_all_or_nothing Str.ascii_lower Demo.str_of Cases.poisoned_world
              shipped_config Cases.two_keywords [] Cases.poisoned_items Cases.bad_item
              AttributeError) as [e [Hfirst [_ Hx]]].
  - exists (Demo.api_of (PList Cases.poisoned_items)). repeat split.
  - right; right; left; reflexivity.
  - vm_compute. reflexivity.
  - reflexivity.
  - vm_compute in Hfirst. injection Hfirst as <-. exact Hx.
Defined.

Lemma fetch_remoteok_not_a_list_witness :
  Run.exec
    (fetch_remoteok Str.ascii_lower Demo.str_of Cases.error_world shipped_config
       Cases.two_keywords)
    [] (Returns [])
    ([Call FetchRemoteok; HttpGet remoteok_url (USER_AGENT shipped_config) 15] ++ []).
Proof.
  apply (fetch_remoteok_not_a_list Str.ascii_lower Demo.str_of Cases.error_world
           shipped_config Cases.two_keywords [] Cases.error_body).
  - exists (Demo.api_of Cases.error_body). repeat split.
  - intros items H. discriminate H.
Defined.

Lemma threshold_above_keywords_witness :
  (forall text,
     keywords_match Str.ascii_lower text (KEYWORDS shipped_config)
       (MIN_KEYWORD_MATCH (Cases.with_threshold 7 shipped_config)) = [])
  /\ (forall feed_url t,
        exists d,
          Run.exec
            (fetch_rss_feed Str.ascii_lower Cases.mail_world
               (Cases.with_threshold 7 shipped_config) feed_url (KEYWORDS shipped_config))
            t (Returns []) d)
  /\ (forall t,
        exists d,
          Run.exec
            (fetch_remoteok Str.ascii_lower Demo.str_of Cases.mail_world
               (Cases.with_threshold 7 shipped_config) (KEYWORDS shipped_config))
            t (Returns []) d).
Proof.
  apply (threshold_above_keywords Str.ascii_lower Demo.str_of Cases.mail_world
           (Cases.with_threshold 7 shipped_config) (KEYWORDS shipped_config)).
  vm_compute. reflexivity.
Defined.

Lemma empty_keyword_matches_all_witness :
  (forall text,
     keywords_match Str.ascii_lower text [""; "python"] (MIN_KEYWORD_MATCH shipped_config)
     <> [])
  /\ (forall entry, entry_kept Str.ascii_lower shipped_config [""; "python"] entry = true)
  /\ (forall d, Py.has_key "position" d || Py.has_key "title" d = true ->
                item_kept Str.ascii_lower Demo.str_of shipped_config [""; "python"]
                  (PDict d) = true).
Proof.
  apply (empty_keyword_matches_all Str.ascii_lower Demo.str_of shipped_config
           [""; "python"]).
  - reflexivity.
  - left; reflexivity.
  - vm_compute. discriminate.
Defined.

Lemma keywords_match_case_insensitive_witness :
  List.map Str.ascii_lower
    (keywords_match Str.ascii_lower (Some "PYTHON Dev") ["Python"; "Django"] 1)
  = List.map Str.ascii_lower
      (keywords_match Str.ascii_lower (Some "python dev") ["python"; "DJANGO"] 1).
Proof.
  apply keywords_match_case_insensitive; reflexivity.
Defined.

Lemma keyword_in_title_or_summary_witness :
  entry_kept Str.ascii_lower shipped_config (KEYWORDS shipped_config)
    Demo.title_only_entry
  = true.
Proof.
  apply (keyword_in_title_or_summary Str.ascii_lower shipped_config
           (KEYWORDS shipped_config) Demo.title_only_entry).
  - exact ascii_lower_app.
  - vm_compute. discriminate.
  - left. vm_compute. discriminate.
Defined.

Lemma not_sent_printed_after_email_witness :
  Run.exec (run_once_notify Demo.str_of Cases.mail_world Cases.mail_config [Cases.job])
    [] (Returns tt)
    ([Print (LogFound (length [Cases.job]))] ++ Cases.mail_events
     ++ [Print LogNotifiedEmail; Print LogNotSent]).
Proof.
  apply (not_sent_printed_after_email Demo.str_of Cases.mail_world Cases.mail_config
           Cases.job [] [] Cases.mail_events); reflexivity.
Defined.

Lemma every_job_in_messages_witness :
  (Str.Occurs (fmt Demo.str_of (title Cases.job)) (email_body Demo.str_of [Cases.job])
   /\ Str.Occurs (fmt Demo.str_of (link Cases.job)) (email_body Demo.str_of [Cases.job])
   /\ Str.Occurs (Str.join ", " (matches Cases.job)) (email_body Demo.str_of [Cases.job]))
  /\ (Str.Occurs (fmt Demo.str_of (title Cases.job))
        (telegram_text Demo.str_of [Cases.job])
      /\ Str.Occurs (fmt Demo.str_of (link Cases.job))
           (telegram_text Demo.str_of [Cases.job])
      /\ Str.Occurs (Str.join ", " (matches Cases.job))
           (telegram_text Demo.str_of [Cases.job])).
Proof.
  apply (every_job_in_messages Demo.str_of [Cases.job] Cases.job).
  left; reflexivity.
Defined.
